(** * File transfer front end: upload and download sessions

    A shallow embedding of the two React components of [src/App.jsx]
    ([FileUploadService] and [DownloadPage]; the stand-alone copy of
    [DownloadPage] has the same code) and the properties of the
    specification that concern them.

    Conventions of the embedding.
    - A JavaScript string is the list of its UTF-16 code units.
    - A JavaScript Number is [NaN], an infinity, or a rational; the sign of
      zero is not modelled.  [parseInt] rounds the integer it reads to the
      nearest double, as the engine does.  The arithmetic of the size
      formatting is exact: it divides a byte count by a power of two and
      rounds to hundredths, which doubles do exactly for counts below 2^53.
      [Math.log] is approximated by the engine; the model takes the integer
      part of the logarithm in base 1024 as exact, which agrees with the
      engine for the counts the table of units covers (below 1024^4) and may
      be one less than the engine's result just below a higher power of 1024.
      The progress percentage is a rounded quotient in the browser; rounding
      keeps its order.
    - React state is a record; a [setX (v)] is a record update.
    - What the host provides ([window.location.origin], [JSON.parse], the
      text of the engine's [TypeError]s, the outcome of a network call) is an
      input of the model. *)

From Stdlib Require Import List Bool ZArith NArith QArith Qround Qpower Lia.
From Stdlib Require Import Ascii String DecimalString.
Import ListNotations.

Set Warnings "-register-all".
Local Open Scope N_scope.

(** ** JavaScript strings *)

Definition jsstring := list N.

(** A string literal of the source (all literals of the source are ASCII). *)
Definition str (s : string) : jsstring :=
  List.map N_of_ascii (list_ascii_of_string s).
Arguments str s%_string.

Definition string_eqb (a b : jsstring) : bool :=
  if list_eq_dec N.eq_dec a b then true else false.

(** [s.startsWith(p)], returning what follows the prefix. *)
Fixpoint strip_prefix (p s : jsstring) : option jsstring :=
  match p, s with
  | [], _ => Some s
  | c :: p', d :: s' => if c =? d then strip_prefix p' s' else None
  | _ :: _, [] => None
  end.

Definition startsWith (s p : jsstring) : bool :=
  match strip_prefix p s with Some _ => true | None => false end.

(** Decimal rendering of a non-negative integer, as template literals and
    string concatenation render an integral Number. *)
Definition N_to_string (n : N) : jsstring :=
  str (NilZero.string_of_uint (N.to_uint n)).

(** ** Regular expressions of the source *)

(** LineTerminator: LF, CR, U+2028, U+2029. *)
Definition is_line_terminator (c : N) : bool :=
  (c =? 10) || (c =? 13) || (c =? 8232) || (c =? 8233).

(** The atom [.] (no [s] flag): any code unit but a line terminator. *)
Definition dot (c : N) : bool := negb (is_line_terminator c).

Definition nonempty (s : jsstring) : bool :=
  match s with [] => false | _ :: _ => true end.

(** A pattern without the sticky flag is tried at every position from the
    left; the first attempt that succeeds is the match.  [attempt] is the
    pattern tried at the start of its argument. *)
Fixpoint leftmost {A} (attempt : jsstring -> option A) (s : jsstring) : option A :=
  match attempt s with
  | Some g => Some g
  | None => match s with [] => None | _ :: t => leftmost attempt t end
  end.

(** The pattern of [getFileIdFromPath] and of [uploadFiles], the literal
    /download/ followed by the group (.+) and the anchor $, tried at the
    start of [s]: the capture group.  The group is greedy and the anchor (no
    m flag) holds only at the end of the input, so the attempt succeeds
    exactly when everything after the prefix is a non-empty run of [dot]. *)
Definition download_re_at (s : jsstring) : option jsstring :=
  match strip_prefix (str "/download/") s with
  | Some rest => if nonempty rest && forallb dot rest then Some rest else None
  | None => None
  end.

(** [s.match] with that pattern: group 1 of the leftmost match, [None] for
    a [null] result. *)
Definition download_re : jsstring -> option jsstring := leftmost download_re_at.

Definition is_quote (c : N) : bool := (c =? 39) || (c =? 34).

(** The class of every code unit but semicolon, equals sign and LF. *)
Definition name_char (c : N) : bool := negb ((c =? 59) || (c =? 61) || (c =? 10)).

(** The class of every code unit but semicolon and LF. *)
Definition value_char (c : N) : bool := negb ((c =? 59) || (c =? 10)).

Fixpoint takeWhile (f : N -> bool) (s : jsstring) : jsstring :=
  match s with
  | c :: t => if f c then c :: takeWhile f t else []
  | [] => []
  end.

Fixpoint dropWhile (f : N -> bool) (s : jsstring) : jsstring :=
  match s with
  | c :: t => if f c then dropWhile f t else s
  | [] => []
  end.

(** After an opening quote [q], the lazy run of [dot] closed by the back
    reference to [q]: the run up to the first [q]; [None] when a line
    terminator or the end of the input comes first. *)
Fixpoint lazy_until (q : N) (s : jsstring) : option jsstring :=
  match s with
  | [] => None
  | c :: t =>
      if c =? q then Some []
      else if dot c then option_map (cons c) (lazy_until q t)
      else None
  end.

(** Group 1 of the file name pattern: a quoted run (a single or double
    quote, [lazy_until], the same quote) when that alternative matches, else
    the greedy run of [value_char], which always matches. *)
Definition filename_value (s : jsstring) : jsstring :=
  match s with
  | q :: t =>
      if is_quote q then
        match lazy_until q t with
        | Some inner => q :: inner ++ [q]
        | None => takeWhile value_char s
        end
      else takeWhile value_char s
  | [] => []
  end.

(** The file name pattern of [downloadFile] tried at the start of [s]: the
    literal filename, a greedy run of [name_char], an equals sign, group 1.
    The class of the run excludes the equals sign, so the run is maximal and
    must be followed by one. *)
Definition filename_re_at (s : jsstring) : option jsstring :=
  match strip_prefix (str "filename") s with
  | Some r =>
      match dropWhile name_char r with
      | 61 :: v => Some (filename_value v)
      | _ => None
      end
  | None => None
  end.

(** [contentDisposition.match] with that pattern: group 1 of the leftmost
    match. *)
Definition filename_re : jsstring -> option jsstring := leftmost filename_re_at.

(** [replace] of every single or double quote by the empty string. *)
Definition remove_quotes (s : jsstring) : jsstring :=
  filter (fun c => negb (is_quote c)) s.

(** ** Numbers *)

Inductive number :=
  | NaN
  | Infinity (negative : bool)
  | Num (q : Q).

Definition of_N (n : N) : number := Num (inject_Z (Z.of_N n)).
Definition of_Z (z : Z) : number := Num (inject_Z z).

(** ToBoolean of a Number. *)
Definition number_truthy (x : number) : bool :=
  match x with
  | NaN => false
  | Infinity _ => true
  | Num q => negb (Qeq_bool q 0)
  end.

Definition negative_rational (q : Q) : bool := negb (Qle_bool 0 q).

(** [a / b].  The sign of a zero is not modelled. *)
Definition number_div (a b : number) : number :=
  match a, b with
  | NaN, _ | _, NaN => NaN
  | Infinity _, Infinity _ => NaN
  | Infinity s, Num y => Infinity (xorb s (negative_rational y))
  | Num _, Infinity _ => Num 0
  | Num x, Num y =>
      if Qeq_bool y 0 then
        (if Qeq_bool x 0 then NaN else Infinity (negative_rational x))
      else Num (x / y)%Q
  end.

(** [a * b]. *)
Definition number_mul (a b : number) : number :=
  match a, b with
  | NaN, _ | _, NaN => NaN
  | Infinity s, Infinity s' => Infinity (xorb s s')
  | Infinity s, Num y | Num y, Infinity s =>
      if Qeq_bool y 0 then NaN else Infinity (xorb s (negative_rational y))
  | Num x, Num y => Num (x * y)%Q
  end.

(** StrWhiteSpaceChar: WhiteSpace and LineTerminator. *)
Definition is_white_space (c : N) : bool :=
  (c =? 9) || (c =? 10) || (c =? 11) || (c =? 12) || (c =? 13) || (c =? 32)
  || (c =? 160) || (c =? 5760) || ((8192 <=? c) && (c <=? 8202))
  || (c =? 8232) || (c =? 8233) || (c =? 8239) || (c =? 8287)
  || (c =? 12288) || (c =? 65279).

Definition digit_value (radix c : N) : option N :=
  let v :=
    if (48 <=? c) && (c <=? 57) then Some (c - 48)
    else if (97 <=? c) && (c <=? 122) then Some (c - 87)
    else if (65 <=? c) && (c <=? 90) then Some (c - 55)
    else None in
  match v with
  | Some d => if d <? radix then Some d else None
  | None => None
  end.

(** The longest prefix of radix-[radix] digits and its value; [acc] is [None]
    until a digit has been read. *)
Fixpoint parse_digits (radix : N) (s : jsstring) (acc : option N) : option N :=
  match s with
  | c :: t =>
      match digit_value radix c with
      | Some d =>
          parse_digits radix t
            (Some (radix * match acc with Some a => a | None => 0 end + d))
      | None => acc
      end
  | [] => acc
  end.

(** The double nearest to the integer [n], the one with the even significand
    at a tie: [n] itself below 2^53; above, the 53 leading bits of [n],
    rounded on the bits that follow.  [None] when the result is beyond the
    largest double, which the engine renders as an infinity. *)
Definition to_double (n : N) : option N :=
  if n <? 2 ^ 53 then Some n
  else
    let e := N.log2 n - 52 in
    let q := N.shiftr n e in
    let r := n mod 2 ^ e in
    let half := 2 ^ (e - 1) in
    let q' := if (half <? r) || ((r =? half) && N.odd q) then q + 1 else q in
    let v := N.shiftl q' e in
    if 2 ^ 1024 <=? v then None else Some v.

(** The Number for [sign * n]. *)
Definition integer_number (sign : Z) (n : N) : number :=
  match to_double n with
  | Some v => of_Z (sign * Z.of_N v)
  | None => Infinity (sign <? 0)%Z
  end.

(** [parseInt(s)] with no radix argument: leading white space is skipped, a
    sign is read, the prefix 0x or 0X selects radix 16, and the longest run
    of digits gives the integer, which is converted to a Number; [NaN] when
    there is no digit. *)
Definition parseInt (s : jsstring) : number :=
  let s1 := dropWhile is_white_space s in
  let '(sign, s2) :=
    match s1 with
    | c :: t =>
        if c =? 45 then ((-1)%Z, t)
        else if c =? 43 then (1%Z, t)
        else (1%Z, s1)
    | [] => (1%Z, s1)
    end in
  let '(radix, s3) :=
    match s2 with
    | c :: x :: t =>
        if (c =? 48) && ((x =? 120) || (x =? 88)) then (16, t) else (10, s2)
    | _ => (10, s2)
    end in
  match parse_digits radix s3 None with
  | Some n => integer_number sign n
  | None => NaN
  end.

(** ** Size formatting, shared by both components *)

Definition sizes : list jsstring := [str "Bytes"; str "KB"; str "MB"; str "GB"].

(** The integer part of the binary logarithm of a positive rational. *)
Definition ilog2 (q : Q) : Z :=
  if Qle_bool 1 q then Z.log2 (Qnum q / Zpos (Qden q))
  else (- Z.log2_up ((Zpos (Qden q) + Qnum q - 1) / Qnum q))%Z.

(** [Math.floor(Math.log(bytes) / Math.log(k))] for [k = 1024] and a positive
    finite [bytes]: the integer part of the logarithm in base 1024, taken as
    exact.  The engine computes the quotient of two rounded logarithms: for
    an integer byte count below 1024^4 its result is this one, and just
    below a higher power of 1024 it can be the next integer (the unit is
    outside the table either way). *)
Definition log_floor (q : Q) : Z := (ilog2 q / 10)%Z.

(** [x.toFixed(2)] as the number of hundredths: the integer [n] with [n/100]
    nearest to [x], the larger one at a tie. *)
Definition toFixed2 (x : Q) : Z := Qfloor (x * 100 + (1 # 2))%Q.

Definition digit (d : Z) : jsstring := [48 + Z.to_N d].

(** [parseFloat] of [n/100] written with two decimals, converted back to a
    string by the concatenation, for [n >= 0]: the shortest decimal, without
    trailing zeros. *)
Definition hundredths_to_string (n : Z) : jsstring :=
  let whole := N_to_string (Z.to_N (n / 100)) in
  let frac := (n mod 100)%Z in
  if (frac =? 0)%Z then whole
  else if (frac mod 10 =? 0)%Z then whole ++ str "." ++ digit (frac / 10)
  else whole ++ str "." ++ digit (frac / 10) ++ digit (frac mod 10).

(** [sizes[i]] inside a string concatenation: the text undefined when [i]
    is out of range. *)
Definition unit_name (i : Z) : jsstring :=
  if (i <? 0)%Z then str "undefined"
  else nth (Z.to_nat i) sizes (str "undefined").

(** The body below the zero test:
    [i = Math.floor(Math.log(bytes) / Math.log(k))] and
    the concatenation of [parseFloat((bytes / Math.pow(k, i)).toFixed(2))],
    a space and [sizes[i]]. *)
Definition format_nonzero (bytes : number) : jsstring :=
  match bytes with
  | Num q =>
      if Qle_bool q 0 then str "NaN undefined"
      else
        let i := log_floor q in
        hundredths_to_string (toFixed2 (q / 1024 ^ i)%Q) ++ str " " ++ unit_name i
  | _ => str "NaN undefined"
  end.

(** ** JavaScript values and exceptions *)

Inductive value :=
  | VUndefined
  | VNull
  | VBool (b : bool)
  | VNumber (n : number)
  | VString (s : jsstring)
  | VArray (items : list value)
  | VObject (props : list (jsstring * value))
  | VFunction (name : jsstring).

(** ToBoolean. *)
Definition truthy (v : value) : bool :=
  match v with
  | VUndefined | VNull => false
  | VBool b => b
  | VNumber n => number_truthy n
  | VString s => nonempty s
  | VArray _ | VObject _ | VFunction _ => true
  end.

(** The own property [k] of an object. *)
Fixpoint lookup (k : jsstring) (props : list (jsstring * value)) : option value :=
  match props with
  | [] => None
  | (k', v) :: rest => if string_eqb k k' then Some v else lookup k rest
  end.

(** The property names [uploadFiles] reads on the response. *)
Inductive property := downloadLink | url | link | files.

Definition property_name (p : property) : jsstring :=
  match p with
  | downloadLink => str "downloadLink"
  | url => str "url"
  | link => str "link"
  | files => str "files"
  end.

(** The [TypeError]s the modelled code can raise; their text is the engine's. *)
Inductive type_error :=
  | NotAnObject (v : value) (p : jsstring)
  | NotAFunction (receiver : value) (method : jsstring).

Inductive exn :=
  | Error (message : jsstring)
  | TypeError (e : type_error).

(** The outcome of an expression that may throw. *)
Definition completion (A : Type) : Type := (exn + A)%type.

Definition ret {A} (a : A) : completion A := inr a.
Definition throw {A} (e : exn) : completion A := inl e.
Definition bind {A B} (c : completion A) (k : A -> completion B) : completion B :=
  match c with
  | inl e => inl e
  | inr a => k a
  end.

Notation "x <- c ;; k" := (bind c (fun x => k))
  (at level 61, c at next level, right associativity).

(** The own property [p] of an object, [undefined] when it has none. *)
Definition own (p : property) (props : list (jsstring * value)) : value :=
  match lookup (property_name p) props with
  | Some x => x
  | None => VUndefined
  end.

(** [v.p] for one of the four names.  Reading a property of [null] or
    [undefined] throws.  On an object the own property decides; none of the
    four names is defined by [Object.prototype], [Array.prototype],
    [Number.prototype], [Boolean.prototype] or [Function.prototype].  On a
    string, [link] is the method [String.prototype.link] (ECMAScript, Annex
    B.2.2), present in every browser. *)
Definition get (v : value) (p : property) : completion value :=
  match v with
  | VUndefined | VNull => throw (TypeError (NotAnObject v (property_name p)))
  | VObject props => ret (own p props)
  | VString _ =>
      ret (match p with link => VFunction (str "link") | _ => VUndefined end)
  | _ => ret VUndefined
  end.

(** ** Files and network requests *)

Record File := { name : jsstring; size : N; payload : N }.

Definition Blob := list Byte.byte.

Inductive request :=
  | POST (target : jsstring) (formData : list (jsstring * File))
  | GET (target : jsstring) (headers : list (jsstring * jsstring)).

(** [l.filter((_, i) => i !== index)], with [i] counted from [from]. *)
Fixpoint filter_index {A} (from index : Z) (l : list A) : list A :=
  match l with
  | [] => []
  | x :: t =>
      if (from =? index)%Z then filter_index (from + 1) index t
      else x :: filter_index (from + 1) index t
  end.

(** ** The upload component *)

Module FileUploadService.

Inductive result_t :=
  | success (downloadUrl : jsstring) (backendUrl : value) (files : value)
      (response : value)
  | error (message : jsstring).

(** The [useState] cells of the component. *)
Record state := mkState {
  selectedFiles : list File;
  isUploading : bool;
  uploadProgress : number;
  result : option result_t;
  showQR : bool;
  qrLoading : bool;
  copySuccess : bool
}.

Definition initial : state :=
  mkState [] false (of_N 0) None false false false.

Definition setSelectedFiles (v : list File) (st : state) : state :=
  mkState v (isUploading st) (uploadProgress st) (result st) (showQR st)
    (qrLoading st) (copySuccess st).

Definition setIsUploading (v : bool) (st : state) : state :=
  mkState (selectedFiles st) v (uploadProgress st) (result st) (showQR st)
    (qrLoading st) (copySuccess st).

Definition setUploadProgress (v : number) (st : state) : state :=
  mkState (selectedFiles st) (isUploading st) v (result st) (showQR st)
    (qrLoading st) (copySuccess st).

Definition setResult (v : option result_t) (st : state) : state :=
  mkState (selectedFiles st) (isUploading st) (uploadProgress st) v (showQR st)
    (qrLoading st) (copySuccess st).

Definition handleFiles (fileArray : list File) (st : state) : state :=
  setResult None (setSelectedFiles fileArray st).

Definition removeFile (index : Z) (st : state) : state :=
  let newFiles := filter_index 0 index (selectedFiles st) in
  setSelectedFiles newFiles st.

Definition clearFiles (st : state) : state :=
  setResult None (setSelectedFiles [] st).

Definition formatFileSize (bytes : number) : jsstring :=
  match bytes with
  | Num q => if Qeq_bool q 0 then str "0 Bytes" else format_nonzero bytes
  | _ => format_nonzero bytes
  end.

(** A [progress] event of [xhr.upload]. *)
Record ProgressEvent := {
  lengthComputable : bool;
  loaded : N;
  total : N
}.

(** The listener on [xhr.upload]. *)
Definition onprogress (e : ProgressEvent) (st : state) : state :=
  if lengthComputable e then
    let percentComplete :=
      number_mul (number_div (of_N (loaded e)) (of_N (total e))) (of_N 100) in
    setUploadProgress percentComplete st
  else st.

(** How the request ends: [xhr.onload] with the status and the body, or
    [xhr.onerror]. *)
Inductive xhr :=
  | onload (status : N) (responseText : jsstring)
  | onerror.

Section Host.

(** [window.location.origin]. *)
Variable origin : jsstring.
(** [JSON.parse]: [None] when it throws. *)
Variable JSON_parse : jsstring -> option value.
(** The [message] of a [TypeError] the engine raises. *)
Variable TypeError_message : type_error -> jsstring.

(** The awaited promise. *)
Definition promise (x : xhr) : completion value :=
  match x with
  | onload status responseText =>
      if status =? 200 then
        match JSON_parse responseText with
        | Some v => ret v
        | None => ret (VString responseText)
        end
      else
        throw (Error (if nonempty responseText then responseText
                      else str "HTTP " ++ N_to_string status))
  | onerror => throw (Error (str "Upload failed - Network error"))
  end.

(** [response.downloadLink || response.url || response.link]. *)
Definition backendDownloadLink_of (response : value) : completion value :=
  a <- get response downloadLink ;;
  if truthy a then ret a
  else
    b <- get response url ;;
    if truthy b then ret b else get response link.

(** The conversion of the service's link to the link of this site, for a
    link that is a string (the [toPublic] of the specification). *)
Definition toPublic (backendDownloadLink : jsstring) : jsstring :=
  match download_re backendDownloadLink with
  | Some fileId => origin ++ str "/download/" ++ fileId
  | None =>
      if startsWith backendDownloadLink (str "http") then backendDownloadLink
      else str "https://upload-qodp.onrender.com" ++ backendDownloadLink
  end.

(** [frontendDownloadUrl]: empty for a falsy link; a truthy link that is
    not a string has no method [match]. *)
Definition frontendDownloadUrl_of (backendDownloadLink : value)
  : completion jsstring :=
  if truthy backendDownloadLink then
    match backendDownloadLink with
    | VString s => ret (toPublic s)
    | v => throw (TypeError (NotAFunction v (str "match")))
    end
  else ret [].

Definition names_of (fs : list File) : value :=
  VArray (List.map (fun f => VObject [(str "name", VString (name f))]) fs).

(** The [try] block from the [await] on; [captured] is the batch the
    closure of this call holds. *)
Definition try_block (captured : list File) (x : xhr) (st : state)
  : completion state :=
  response <- promise x ;;
  backendDownloadLink <- backendDownloadLink_of response ;;
  frontendDownloadUrl <- frontendDownloadUrl_of backendDownloadLink ;;
  fs <- get response files ;;
  ret (setSelectedFiles []
         (setResult
            (Some (success frontendDownloadUrl backendDownloadLink
                     (if truthy fs then fs else names_of captured)
                     response))
            st)).

Definition message_of (e : exn) : jsstring :=
  match e with
  | Error m => m
  | TypeError t => TypeError_message t
  end.

(** [catch] and [finally]. *)
Definition settle (captured : list File) (x : xhr) (st : state) : state :=
  let st' :=
    match try_block captured x st with
    | inr s => s
    | inl e =>
        let m := message_of e in
        setResult (Some (error (if nonempty m then m else str "Upload failed")))
          st
    end in
  setUploadProgress (of_N 0) (setIsUploading false st').

(** The state when the request is sent. *)
Definition started (st : state) : state :=
  setResult None (setUploadProgress (of_N 0) (setIsUploading true st)).

Definition progressed (events : list ProgressEvent) (st : state) : state :=
  fold_left (fun s e => onprogress e s) events st.

(** One call of [uploadFiles]: the progress events the transport reports
    while the request is in flight, then its end.  The result is the
    final state and the requests issued. *)
Definition uploadFiles (st : state) (events : list ProgressEvent) (x : xhr)
  : state * list request :=
  if (List.length (selectedFiles st) =? 0)%nat then (st, [])
  else
    let formData := List.map (fun f => (str "files", f)) (selectedFiles st) in
    (settle (selectedFiles st) x (progressed events (started st)),
     [POST (str "https://upload-qodp.onrender.com/upload") formData]).

End Host.

(** The status of the specification, read off the state as the view shows
    it: the progress bar while [isUploading], else the result box. *)
Inductive status := Idle | Selected | Uploading | Succeeded | Failed.

Definition status_of (st : state) : status :=
  if isUploading st then Uploading
  else
    match result st with
    | Some (success _ _ _ _) => Succeeded
    | Some (error _) => Failed
    | None => match selectedFiles st with [] => Idle | _ :: _ => Selected end
    end.

(** *** The component as a machine of events

    The handlers above run one at a time, each on the state of the last
    render.  An event is a handler the view offers, or the resumption of an
    awaited operation.  The view offers the remove buttons of the files it
    lists, the upload and clear buttons when the batch is not empty (the
    upload button disabled while [isUploading]), and the copy and QR buttons
    inside the box of a successful result (the QR button disabled while
    [qrLoading]).  An event the view does not offer leaves the session as it
    is. *)

Definition setShowQR (v : bool) (st : state) : state :=
  mkState (selectedFiles st) (isUploading st) (uploadProgress st) (result st) v
    (qrLoading st) (copySuccess st).

Definition setQrLoading (v : bool) (st : state) : state :=
  mkState (selectedFiles st) (isUploading st) (uploadProgress st) (result st)
    (showQR st) v (copySuccess st).

Definition setCopySuccess (v : bool) (st : state) : state :=
  mkState (selectedFiles st) (isUploading st) (uploadProgress st) (result st)
    (showQR st) (qrLoading st) v.

(** [toggleQR] up to its [await]; the flag tells whether it awaits the
    800 ms. *)
Definition toggleQR (st : state) : state * bool :=
  if negb (showQR st) then (setShowQR true (setQrLoading true st), true)
  else (setQrLoading false (setShowQR false st), false).

(** [toggleQR] after the 800 ms. *)
Definition toggleQR_resumed (st : state) : state := setQrLoading false st.

(** [copyToClipboard] once the text is written, by the clipboard or by the
    fallback, and the callback of its timer. *)
Definition copied (st : state) : state := setCopySuccess true st.
Definition copy_expired (st : state) : state := setCopySuccess false st.

(** The request [uploadFiles] sends for a batch. *)
Definition upload_request (batch : list File) : request :=
  POST (str "https://upload-qodp.onrender.com/upload")
    (List.map (fun f => (str "files", f)) batch).

Definition nonempty_batch (st : state) : bool :=
  (0 <? List.length (selectedFiles st))%nat.

Definition succeeded (st : state) : bool :=
  match result st with
  | Some (success _ _ _ _) => true
  | _ => false
  end.

(** The component between two events: its state, the batches captured by
    the calls of [uploadFiles] whose request is in flight, the requests sent
    so far, and the timers that are running. *)
Record session := mkSession {
  view : state;
  inflight : list (list File);
  sent : list request;
  qrTimers : nat;
  copyTimers : nat
}.

Inductive event :=
  | Select (fileArray : list File)
  | ClickRemove (index : nat)
  | ClickUpload
  | ClickClear
  | Progress (e : ProgressEvent)
  | Ended (x : xhr)
  | ClickQR
  | QRTimeout
  | ClickCopy
  | CopyTimeout.

Definition mounted : session := mkSession initial [] [] 0 0.

Definition nonempty_list {A} (l : list A) : bool :=
  match l with [] => false | _ :: _ => true end.

Section Machine.

Variable origin : jsstring.
Variable JSON_parse : jsstring -> option value.
Variable TypeError_message : type_error -> jsstring.

Definition step (e : event) (m : session) : session :=
  let st := view m in
  match e with
  | Select fileArray =>
      mkSession (handleFiles fileArray st) (inflight m) (sent m) (qrTimers m)
        (copyTimers m)
  | ClickRemove index =>
      if (index <? List.length (selectedFiles st))%nat then
        mkSession (removeFile (Z.of_nat index) st) (inflight m) (sent m)
          (qrTimers m) (copyTimers m)
      else m
  | ClickUpload =>
      if nonempty_batch st && negb (isUploading st) then
        mkSession (started st) (inflight m ++ [selectedFiles st])
          (sent m ++ [upload_request (selectedFiles st)]) (qrTimers m)
          (copyTimers m)
      else m
  | ClickClear =>
      if nonempty_batch st then
        mkSession (clearFiles st) (inflight m) (sent m) (qrTimers m) (copyTimers m)
      else m
  | Progress p =>
      match inflight m with
      | _ :: _ =>
          mkSession (onprogress p st) (inflight m) (sent m) (qrTimers m)
            (copyTimers m)
      | [] => m
      end
  | Ended x =>
      match inflight m with
      | captured :: rest =>
          mkSession (settle origin JSON_parse TypeError_message captured x st) rest
            (sent m) (qrTimers m) (copyTimers m)
      | [] => m
      end
  | ClickQR =>
      if succeeded st && negb (qrLoading st) then
        mkSession (fst (toggleQR st)) (inflight m) (sent m)
          (if snd (toggleQR st) then S (qrTimers m) else qrTimers m) (copyTimers m)
      else m
  | QRTimeout =>
      match qrTimers m with
      | S n => mkSession (toggleQR_resumed st) (inflight m) (sent m) n (copyTimers m)
      | O => m
      end
  | ClickCopy =>
      if succeeded st then
        mkSession (copied st) (inflight m) (sent m) (qrTimers m) (S (copyTimers m))
      else m
  | CopyTimeout =>
      match copyTimers m with
      | S n => mkSession (copy_expired st) (inflight m) (sent m) (qrTimers m) n
      | O => m
      end
  end.

Definition run (events : list event) (m : session) : session :=
  fold_left (fun m e => step e m) events m.

(** What the [try] block makes of the response, before any state is set:
    the result to show, or the exception. *)
Definition outcome (captured : list File) (x : xhr) : completion result_t :=
  response <- promise JSON_parse x ;;
  backendDownloadLink <- backendDownloadLink_of response ;;
  frontendDownloadUrl <- frontendDownloadUrl_of origin backendDownloadLink ;;
  fs <- get response files ;;
  ret (success frontendDownloadUrl backendDownloadLink
         (if truthy fs then fs else names_of captured) response).

End Machine.

(** What holds of the session after every sequence of events: at most one
    request is in flight, and [isUploading] tells whether one is; no result
    is shown while uploading; the progress is zero when not uploading; the
    QR area is shown while its code is loading, and exactly then its timer
    runs. *)
Definition invariant (m : session) : Prop :=
  (List.length (inflight m) <= 1)%nat /\
  isUploading (view m) = nonempty_list (inflight m) /\
  (isUploading (view m) = true -> result (view m) = None) /\
  (isUploading (view m) = false -> uploadProgress (view m) = of_N 0) /\
  (qrLoading (view m) = true -> showQR (view m) = true) /\
  qrTimers m = (if qrLoading (view m) then 1 else 0)%nat.

End FileUploadService.

(** ** The download component *)

Module DownloadPage.

(** [pathname] is [window.location.pathname]. *)
Definition getFileIdFromPath (pathname : jsstring) : option jsstring :=
  download_re pathname.

Inductive downloadStatus_t := loading | success | error.

Record FileInfo := {
  filename : jsstring;
  size : number;
  type : jsstring
}.

Record state := mkState {
  fileId : option jsstring;
  downloadStatus : downloadStatus_t;
  errorMessage : jsstring;
  fileInfo : option FileInfo
}.

(** The state at the first render. *)
Definition initial (pathname : jsstring) : state :=
  mkState (getFileIdFromPath pathname) loading [] None.

Definition setDownloadStatus (v : downloadStatus_t) (st : state) : state :=
  mkState (fileId st) v (errorMessage st) (fileInfo st).

Definition setErrorMessage (v : jsstring) (st : state) : state :=
  mkState (fileId st) (downloadStatus st) v (fileInfo st).

Definition setFileInfo (v : option FileInfo) (st : state) : state :=
  mkState (fileId st) (downloadStatus st) (errorMessage st) v.

(** The response of [fetch]: [header] is [response.headers.get], [blob] is
    what [response.blob()] settles to, the [message] of the reason when it
    rejects. *)
Record Response := {
  ok : bool;
  status : N;
  statusText : jsstring;
  header : jsstring -> option jsstring;
  blob : jsstring + Blob
}.

(** What [fetch] settles to; [rejected m] carries the [message] of the
    reason, empty when it has none. *)
Inductive fetched :=
  | rejected (message : jsstring)
  | resolved (response : Response).

(** What the component does to the outside: a network request, or the click
    on a temporary link that saves [body] as [download]. *)
Inductive effect :=
  | Request (r : request)
  | Save (download : jsstring) (body : Blob).

(** [h || d] for a header value [h] that is a string or [null]. *)
Definition or_default (h : option jsstring) (d : jsstring) : jsstring :=
  match h with
  | Some s => if nonempty s then s else d
  | None => d
  end.

(** The file name taken from [Content-Disposition]. *)
Definition filename_of (contentDisposition : option jsstring) : jsstring :=
  match contentDisposition with
  | Some cd =>
      if nonempty cd then
        match filename_re cd with
        | Some g => if nonempty g then remove_quotes g else str "download"
        | None => str "download"
        end
      else str "download"
  | None => str "download"
  end.

(** [contentLength ? parseInt(contentLength) : blob.size]. *)
Definition size_of (contentLength : option jsstring) (b : Blob) : number :=
  match contentLength with
  | Some cl =>
      if nonempty cl then parseInt cl else of_N (N.of_nat (List.length b))
  | None => of_N (N.of_nat (List.length b))
  end.

(** The [catch] block. *)
Definition failed (message : jsstring) (st : state) : state :=
  setErrorMessage
    (if nonempty message then message else str "Failed to download file")
    (setDownloadStatus error st).

Definition downloadFile (id : jsstring) (f : fetched) (st : state)
  : state * list effect :=
  let st := setDownloadStatus loading st in
  let req :=
    Request (GET (str "https://upload-qodp.onrender.com/download/" ++ id)
               [(str "Accept", str "*/*")]) in
  match f with
  | rejected m => (failed m st, [req])
  | resolved response =>
      if negb (ok response) then
        (failed (str "Download failed: " ++ N_to_string (status response)
                   ++ str " " ++ statusText response) st,
         [req])
      else
        let contentDisposition := header response (str "content-disposition") in
        let contentType := header response (str "content-type") in
        let contentLength := header response (str "content-length") in
        let filename := filename_of contentDisposition in
        match blob response with
        | inl m => (failed m st, [req])
        | inr b =>
            (setDownloadStatus success
               (setFileInfo
                  (Some {| filename := filename;
                           size := size_of contentLength b;
                           type := or_default contentType
                                     (str "application/octet-stream") |})
                  st),
             [req; Save filename b])
        end
  end.

(** The effect run after the first render; [f] is what the request settles
    to if one is made. *)
Definition useEffect (f : fetched) (st : state) : state * list effect :=
  match fileId st with
  | Some id =>
      if nonempty id then downloadFile id f st
      else (setErrorMessage (str "No file ID provided")
              (setDownloadStatus error st), [])
  | None =>
      (setErrorMessage (str "No file ID provided")
         (setDownloadStatus error st), [])
  end.

(** The component mounted at [pathname]. *)
Definition mount (pathname : jsstring) (f : fetched) : state * list effect :=
  useEffect f (initial pathname).

Definition formatFileSize (bytes : number) : jsstring :=
  if negb (number_truthy bytes) then str "0 Bytes" else format_nonzero bytes.

(** The requests and the saves among the effects of a run. *)
Definition requests (l : list effect) : list request :=
  flat_map (fun e => match e with Request r => [r] | Save _ _ => [] end) l.

Definition saves (l : list effect) : list (jsstring * Blob) :=
  flat_map (fun e => match e with Request _ => [] | Save n b => [(n, b)] end) l.

End DownloadPage.

(** ** The router *)

Module App.

Inductive page := FileUploadServicePage | DownloadPagePage.

(** [Route]: the component when the path matches, [null] otherwise. *)
Definition Route (path : jsstring) (component : page) (exact : bool)
    (currentPath : jsstring) : option page :=
  let isMatch :=
    if exact then string_eqb currentPath path else startsWith currentPath path in
  if isMatch then Some component else None.

(** [App] under [Router]: the two routes, each given the current path; the
    components that are rendered. *)
Definition render (currentPath : jsstring) : list page :=
  flat_map (fun route => match route currentPath with
                         | Some c => [c]
                         | None => []
                         end)
    [Route (str "/") FileUploadServicePage true;
     Route (str "/download/") DownloadPagePage false].

End App.

(** ** Notions of the specification *)

(** [extractId]: the pattern match both components use. *)
Definition extractId (path : jsstring) : option jsstring := download_re path.

(** [s.includes(p)]. *)
Fixpoint includes (p s : jsstring) : bool :=
  match strip_prefix p s with
  | Some _ => true
  | None => match s with [] => false | _ :: t => includes p t end
  end.

(** The first truthy value among the own properties [downloadLink], [url]
    and [link] of an object, in that order. *)
Definition transfer_reference (props : list (jsstring * value)) : option value :=
  find truthy
    (flat_map (fun p => match lookup (property_name p) props with
                        | Some v => [v]
                        | None => []
                        end)
       [downloadLink; url; link]).

(** The responses on which the code after the [await] throws: [null] and
    [undefined] have no properties, and a link that is truthy but not a string
    has no method [match]; on a string the link is the method
    [String.prototype.link]. *)
Definition unusable (response : value) : bool :=
  match response with
  | VUndefined | VNull | VString _ => true
  | VObject props =>
      match transfer_reference props with
      | Some (VString _) | None => false
      | Some _ => true
      end
  | _ => false
  end.

(** The responses that carry no link at all: a number, a boolean, an array,
    or an object none of whose three link properties is truthy. *)
Definition linkless (response : value) : bool :=
  match response with
  | VObject props =>
      match transfer_reference props with
      | None => true
      | Some _ => false
      end
  | VBool _ | VNumber _ | VArray _ | VFunction _ => true
  | VUndefined | VNull | VString _ => false
  end.

(** Any code unit but LF. *)
Definition no_line_feed (c : N) : bool := negb (c =? 10).

(** Order on Numbers that are neither [NaN] nor infinite. *)
Definition number_le (x y : number) : Prop :=
  match x, y with
  | Num a, Num b => (a <= b)%Q
  | _, _ => False
  end.

(** The percentage of the specification, [loaded / total * 100]. *)
Definition ratio (l t : N) : Q :=
  (inject_Z (Z.of_N l) / inject_Z (Z.of_N t) * 100)%Q.

Definition percent (loaded total : N) : number := Num (ratio loaded total).

(** The events that report a byte count all report the same [total]. *)
Definition same_total (t : N) (events : list FileUploadService.ProgressEvent) : Prop :=
  Forall (fun e => FileUploadService.lengthComputable e = true ->
                   FileUploadService.total e = t) events.

(** The byte counts reported never decrease. *)
Fixpoint nondecreasing (last : N) (events : list FileUploadService.ProgressEvent)
  : Prop :=
  match events with
  | [] => True
  | e :: rest =>
      last <= FileUploadService.loaded e /\
      nondecreasing (FileUploadService.loaded e) rest
  end.

(** The byte count of the last event of [events] that reports one, [l0] when
    there is none. *)
Definition reported (l0 : N) (events : list FileUploadService.ProgressEvent) : N :=
  fold_left
    (fun l e => if FileUploadService.lengthComputable e
                then FileUploadService.loaded e else l)
    events l0.

Definition is_decimal_digit (c : N) : bool := (48 <=? c) && (c <=? 57).

(** The value of a run of decimal digits, from the value [acc] of the digits
    before it. *)
Definition decimal_value (acc : N) (digits : jsstring) : N :=
  fold_left (fun a d => 10 * a + (d - 48)) digits acc.

(** ** Scenarios *)

(** A [JSON.parse] known by its results on the bodies of a scenario; it
    throws on every other text. *)
Definition JSON_parse_table (table : list (jsstring * value)) (text : jsstring)
  : option value :=
  lookup text table.

Definition two_files : list File :=
  [Build_File (str "a.txt") 3 0; Build_File (str "b.txt") 5 1].

(** The body of the upload scenario: an object whose [downloadLink] is
    /download/abc123. *)
Definition link_body : jsstring :=
  [123; 34] ++ str "downloadLink" ++ [34; 58; 34] ++ str "/download/abc123" ++ [34; 125].

Definition link_object : value :=
  VObject [(str "downloadLink", VString (str "/download/abc123"))].

(** The headers of the download scenario: the attachment report.pdf, quoted,
    and a length of 2048. *)
Definition report_headers (h : jsstring) : option jsstring :=
  if string_eqb h (str "content-disposition")
  then Some (str "attachment; filename=" ++ [34] ++ str "report.pdf" ++ [34])
  else if string_eqb h (str "content-length") then Some (str "2048")
  else None.

Definition report_response : DownloadPage.Response :=
  {| DownloadPage.ok := true;
     DownloadPage.status := 200;
     DownloadPage.statusText := str "OK";
     DownloadPage.header := report_headers;
     DownloadPage.blob := inr (repeat Byte.x00 2048) |}.

(** * Properties *)

(** ** Strings *)

Lemma strip_prefix_app (p s : jsstring) : strip_prefix p (p ++ s) = Some s.
Proof.
  induction p as [|c p IH]; simpl; [reflexivity|].
  now rewrite N.eqb_refl.
Qed.

Lemma strip_prefix_Some (p s r : jsstring) :
  strip_prefix p s = Some r -> s = p ++ r.
Proof.
  revert s; induction p as [|c p IH]; intros s H; simpl in *.
  - now inversion H.
  - destruct s as [|d s]; [discriminate|].
    destruct (N.eqb_spec c d); [|discriminate].
    subst d. now rewrite (IH _ H).
Qed.

(** ** The leftmost match *)

Lemma leftmost_cons {A} (attempt : jsstring -> option A) (c : N) (s : jsstring) :
  leftmost attempt (c :: s) =
  match attempt (c :: s) with Some g => Some g | None => leftmost attempt s end.
Proof. reflexivity. Qed.

Lemma leftmost_here {A} (attempt : jsstring -> option A) (s : jsstring) (g : A) :
  attempt s = Some g -> leftmost attempt s = Some g.
Proof. intros H. destruct s; simpl; now rewrite H. Qed.

(** Positions at which the attempt fails are skipped. *)
Lemma leftmost_skip {A} (attempt : jsstring -> option A) (pre s : jsstring) :
  (forall a b, pre = a ++ b -> b <> [] -> attempt (b ++ s) = None) ->
  leftmost attempt (pre ++ s) = leftmost attempt s.
Proof.
  induction pre as [|c pre IH]; intros H; [reflexivity|].
  assert (attempt ((c :: pre) ++ s) = None) as E
    by (apply (H [] (c :: pre) eq_refl); discriminate).
  change ((c :: pre) ++ s) with (c :: pre ++ s) in *.
  rewrite leftmost_cons, E.
  apply IH. intros a b -> Hb. now apply (H (c :: a) b).
Qed.

(** ** The download pattern *)

Lemma nonempty_true (s : jsstring) : nonempty s = true <-> s <> [].
Proof. destruct s; simpl; split; congruence. Qed.

Lemma download_re_at_Some (s g : jsstring) :
  download_re_at s = Some g <->
  s = str "/download/" ++ g /\ g <> [] /\ forallb dot g = true.
Proof.
  unfold download_re_at. split.
  - destruct (strip_prefix (str "/download/") s) as [rest|] eqn:E; [|discriminate].
    destruct (nonempty rest && forallb dot rest) eqn:B; [|discriminate].
    intros [= <-]. apply andb_prop in B as [B1 B2].
    repeat split; auto using strip_prefix_Some. now apply nonempty_true.
  - intros (-> & Hne & Hdot). rewrite strip_prefix_app, Hdot.
    apply nonempty_true in Hne. now rewrite Hne.
Qed.

Lemma download_re_cons (c : N) (s : jsstring) :
  download_re (c :: s) =
  match download_re_at (c :: s) with Some g => Some g | None => download_re s end.
Proof. reflexivity. Qed.

(** A match is a decomposition of the input around the literal, and no
    earlier position matches. *)
Lemma download_re_Some (s g : jsstring) :
  download_re s = Some g ->
  exists pre,
    s = pre ++ str "/download/" ++ g /\ g <> [] /\ forallb dot g = true /\
    forall a b, pre = a ++ b -> b <> [] ->
                download_re_at (b ++ str "/download/" ++ g) = None.
Proof.
  induction s as [|c s IH].
  - simpl. discriminate.
  - rewrite download_re_cons.
    destruct (download_re_at (c :: s)) as [g'|] eqn:E.
    + intros [= ->]. apply download_re_at_Some in E as (E & Hne & Hdot).
      exists []. repeat split; auto.
      intros a b Hab Hb. now destruct a, b.
    + intros H. destruct (IH H) as (pre & -> & Hne & Hdot & Hleft).
      exists (c :: pre). repeat split; auto.
      intros a b Hab Hb. destruct a as [|a0 a]; simpl in Hab.
      * now subst b.
      * injection Hab as -> ->. exact (Hleft a b eq_refl Hb).
Qed.

Lemma download_re_at_is_match (s g : jsstring) :
  download_re_at s = Some g -> download_re s = Some g.
Proof. apply leftmost_here. Qed.

Lemma download_re_leftmost (pre s : jsstring) :
  (forall a b, pre = a ++ b -> b <> [] -> download_re_at (b ++ s) = None) ->
  download_re (pre ++ s) = download_re s.
Proof. apply leftmost_skip. Qed.

Lemma download_re_None (s : jsstring) :
  download_re s = None <->
  forall pre id, s = pre ++ str "/download/" ++ id ->
                 id = [] \/ existsb is_line_terminator id = true.
Proof.
  split.
  - induction s as [|c s IH]; intros H pre id E.
    + destruct pre; discriminate.
    + rewrite download_re_cons in H.
      destruct (download_re_at (c :: s)) as [g|] eqn:A; [discriminate|].
      destruct pre as [|c' pre].
      * simpl in E. destruct id as [|i id]; [now left|right].
        destruct (existsb is_line_terminator (i :: id)) eqn:X; [reflexivity|].
        assert (download_re_at (c :: s) = Some (i :: id)) as A'.
        { apply download_re_at_Some. repeat split; [exact E|discriminate|].
          clear -X. induction (i :: id) as [|x l IHl]; [reflexivity|].
          simpl in *. apply orb_false_elim in X as [X1 X2].
          unfold dot. rewrite X1. simpl. auto. }
        congruence.
      * injection E as -> E. now apply (IH H pre id).
  - intros H. destruct (download_re s) as [g|] eqn:E; [|reflexivity].
    apply download_re_Some in E as (pre & E & Hne & Hdot & _).
    destruct (H pre g E) as [->|X]; [congruence|].
    exfalso. clear -Hdot X. induction g as [|x l IHl]; [discriminate|].
    simpl in *. apply andb_prop in Hdot as [D1 D2]. unfold dot in D1.
    destruct (is_line_terminator x); [discriminate|]. simpl in X. auto.
Qed.

Lemma includes_suffix (p a b : jsstring) :
  includes p (a ++ b) = false -> includes p b = false.
Proof.
  induction a as [|c a IH]; [trivial|].
  simpl. destruct (strip_prefix p (c :: a ++ b)); [discriminate|exact IH].
Qed.

Lemma includes_head (p s : jsstring) :
  includes p s = false -> strip_prefix p s = None.
Proof.
  destruct s; simpl; destruct (strip_prefix p _); congruence.
Qed.

(** The literal begins and ends with a slash and has none in between: an
    occurrence that begins inside [b] and runs into a following literal ends
    with the first slash of that literal. *)
Lemma strip_prefix_straddle (b rest : jsstring) :
  b <> [] ->
  strip_prefix (str "/download/") (b ++ str "/") = None ->
  strip_prefix (str "/download/") (b ++ str "/download/" ++ rest) = None.
Proof.
  intros Hb H.
  change (str "/download/") with [47; 100; 111; 119; 110; 108; 111; 97; 100; 47] in *.
  change (str "/") with [47] in H.
  destruct b as [|c0 b]; [congruence|]. clear Hb.
  revert H. cbn [strip_prefix app].
  destruct (47 =? c0); [|reflexivity].
  do 9 (destruct b as [|? b]; cbn [strip_prefix app];
        [ simpl; intros H; try reflexivity; discriminate H
        | match goal with |- context [if ?x =? ?y then _ else _] =>
            destruct (x =? y); [|reflexivity] end ]).
  discriminate.
Qed.

Lemma download_re_after_origin (origin s : jsstring) :
  includes (str "/download/") (origin ++ str "/") = false ->
  download_re (origin ++ str "/download/" ++ s) = download_re (str "/download/" ++ s).
Proof.
  intros H. apply download_re_leftmost. intros a b -> Hb.
  rewrite <- app_assoc in H. apply includes_suffix, includes_head in H.
  unfold download_re_at. now rewrite (strip_prefix_straddle b s Hb H).
Qed.

Lemma download_re_literal (id : jsstring) :
  id <> [] -> forallb dot id = true ->
  download_re (str "/download/" ++ id) = Some id.
Proof.
  intros Hne Hdot. apply download_re_at_is_match, download_re_at_Some. auto.
Qed.

(** ** C9 *)

(** C9. [getFileIdFromPath] returns [null] or a non-empty string, never the
    empty string.  On a path free of line terminators (every URL pathname is:
    the URL parser removes or percent-encodes them) a returned id is the
    whole remainder of the path after the first occurrence of the literal
    /download/, slashes included. *)
Theorem getFileIdFromPath_remainder :
  (forall path,
      DownloadPage.getFileIdFromPath path = None \/
      exists id, DownloadPage.getFileIdFromPath path = Some id /\ id <> []) /\
  (forall path id,
      forallb dot path = true ->
      DownloadPage.getFileIdFromPath path = Some id ->
      exists pre,
        path = pre ++ str "/download/" ++ id /\
        forall pre' rest,
          path = pre' ++ str "/download/" ++ rest ->
          (List.length pre <= List.length pre')%nat).
Proof.
  unfold DownloadPage.getFileIdFromPath. split.
  - intros path. destruct (download_re path) as [id|] eqn:E; [right|now left].
    exists id. split; [reflexivity|].
    now apply download_re_Some in E as (_ & _ & Hne & _).
  - intros path id Hpath E.
    apply download_re_Some in E as (pre & -> & Hne & Hdot & Hleft).
    exists pre. split; [reflexivity|].
    intros pre' rest E.
    destruct (Nat.le_gt_cases (List.length pre) (List.length pre')) as [|Hlt];
      [assumption|exfalso].
    apply app_eq_app in E as [l [[-> E]|[-> E]]].
    + specialize (Hleft pre' l eq_refl).
      rewrite <- E in Hleft.
      assert (l <> []) as Hl by (intros ->; rewrite app_nil_r in Hlt; lia).
      specialize (Hleft Hl).
      assert (download_re_at (str "/download/" ++ rest) = Some rest) as A.
      { apply download_re_at_Some. repeat split.
        - intros ->. apply (f_equal (@List.length N)) in E.
          rewrite !length_app in E. simpl in E.
          destruct l; [congruence|]. simpl in E. lia.
        - rewrite <- app_assoc, <- E in Hpath.
          rewrite !forallb_app in Hpath.
          now apply andb_prop in Hpath as [_ Hp%andb_prop]. }
      congruence.
    + rewrite length_app in Hlt. lia.
Qed.

Lemma getFileIdFromPath_remainder_witness :
  exists pre,
    str "/files/download/a/b" = pre ++ str "/download/" ++ str "a/b" /\
    forall pre' rest,
      str "/files/download/a/b" = pre' ++ str "/download/" ++ rest ->
      (List.length pre <= List.length pre')%nat.
Proof.
  apply (proj2 getFileIdFromPath_remainder); reflexivity.
Defined.

(** ** C5 *)

(** C5. When the path has no decomposition around /download/ with a
    non-empty remainder free of line terminators (it does not match the
    pattern), [getFileIdFromPath] returns [null], and the component mounted
    there ends in the error state with the message No file ID provided,
    without any effect on the outside: no request is made. *)
Theorem no_file_id_fails_without_request (pathname : jsstring) (f : DownloadPage.fetched) :
  (forall pre id,
      pathname = pre ++ str "/download/" ++ id ->
      id = [] \/ existsb is_line_terminator id = true) ->
  DownloadPage.getFileIdFromPath pathname = None /\
  DownloadPage.downloadStatus (fst (DownloadPage.mount pathname f)) = DownloadPage.error /\
  DownloadPage.errorMessage (fst (DownloadPage.mount pathname f)) = str "No file ID provided" /\
  DownloadPage.fileInfo (fst (DownloadPage.mount pathname f)) = None /\
  snd (DownloadPage.mount pathname f) = [].
Proof.
  intros H. apply download_re_None in H.
  unfold DownloadPage.mount, DownloadPage.useEffect, DownloadPage.initial,
    DownloadPage.getFileIdFromPath.
  simpl. rewrite H. simpl. auto.
Qed.

Lemma no_file_id_fails_without_request_witness :
  DownloadPage.getFileIdFromPath (str "/download/") = None /\
  DownloadPage.downloadStatus
    (fst (DownloadPage.mount (str "/download/") (DownloadPage.rejected []))) =
    DownloadPage.error /\
  DownloadPage.errorMessage
    (fst (DownloadPage.mount (str "/download/") (DownloadPage.rejected []))) =
    str "No file ID provided" /\
  DownloadPage.fileInfo
    (fst (DownloadPage.mount (str "/download/") (DownloadPage.rejected []))) = None /\
  snd (DownloadPage.mount (str "/download/") (DownloadPage.rejected [])) = [].
Proof.
  apply (no_file_id_fails_without_request (str "/download/")).
  intros pre id E. apply (f_equal (@List.length N)) in E.
  rewrite !length_app in E. simpl in E.
  destruct id; [now left|simpl in E; lia].
Defined.

(** ** C3 *)

(** C3, as the code has it.  For every id that is not empty and has no line
    terminator (slashes are allowed), and every origin in which the literal
    /download/ does not begin (it neither contains /download/ nor ends with
    /download), extracting the id from the public URL made of the link
    /download/id gives back the id. *)
Theorem extractId_toPublic_roundtrip (origin id : jsstring) :
  id <> [] ->
  forallb dot id = true ->
  includes (str "/download/") (origin ++ str "/") = false ->
  extractId (FileUploadService.toPublic origin (str "/download/" ++ id)) = Some id.
Proof.
  intros Hne Hdot Horigin. unfold extractId, FileUploadService.toPublic.
  rewrite (download_re_literal id Hne Hdot).
  rewrite (download_re_after_origin origin id Horigin).
  now apply download_re_literal.
Qed.

Lemma extractId_toPublic_roundtrip_witness :
  extractId
    (FileUploadService.toPublic (str "https://files.example")
       (str "/download/" ++ str "80e17ee-d1c8")) = Some (str "80e17ee-d1c8").
Proof.
  apply (extractId_toPublic_roundtrip (str "https://files.example") (str "80e17ee-d1c8"));
    [discriminate | reflexivity | reflexivity].
Defined.

(** As the specification states it, the round trip fails at the empty id,
    which has no slash: the link /download/ does not match, the fallback
    prefixes it with the service base, and the extractor finds no id in the
    result.  It fails as well at an id with a line feed, and on an origin
    whose host is named download. *)
Lemma extractId_toPublic_roundtrip_fails :
  existsb (N.eqb 47) [] = false /\
  FileUploadService.toPublic (str "https://files.example") (str "/download/" ++ []) =
    str "https://upload-qodp.onrender.com/download/" /\
  extractId
    (FileUploadService.toPublic (str "https://files.example") (str "/download/" ++ []))
  = None /\
  existsb (N.eqb 47) [97; 10; 98] = false /\
  extractId
    (FileUploadService.toPublic (str "https://files.example")
       (str "/download/" ++ [97; 10; 98])) = None /\
  extractId
    (FileUploadService.toPublic (str "http://download") (str "/download/" ++ str "abc"))
  = Some (str "download/abc").
Proof. repeat split; reflexivity. Qed.

(** ** The upload component *)

Import FileUploadService.

Lemma filter_index_out {A} (from index : Z) (l : list A) :
  (index < from \/ from + Z.of_nat (List.length l) <= index)%Z ->
  filter_index from index l = l.
Proof.
  revert from; induction l as [|x l IH]; intros from H; simpl; [reflexivity|].
  destruct (Z.eqb_spec from index) as [->|Hne].
  - simpl List.length in H. lia.
  - rewrite IH; [reflexivity|]. simpl List.length in H. lia.
Qed.

Lemma filter_index_in {A} (from index : Z) (l : list A) :
  (from <= index < from + Z.of_nat (List.length l))%Z ->
  exists before x after,
    l = before ++ x :: after /\
    (from + Z.of_nat (List.length before))%Z = index /\
    filter_index from index l = before ++ after.
Proof.
  revert from; induction l as [|x l IH]; intros from H; simpl in H; [lia|].
  simpl. destruct (Z.eqb_spec from index) as [->|Hne].
  - exists [], x, l. repeat split; simpl; [lia|].
    apply filter_index_out. lia.
  - destruct (IH (from + 1)%Z) as (before & y & after & -> & Hlen & ->); [lia|].
    exists (x :: before), y, after. repeat split. simpl List.length. lia.
Qed.

(** C10. [removeFile (index)] changes no cell of the state but the batch.
    An index outside the batch leaves the batch as it is; an index inside it
    removes the descriptor at that position and keeps the others in their
    order. *)
Theorem removeFile_removes_one (index : Z) (st : state) :
  isUploading (removeFile index st) = isUploading st /\
  uploadProgress (removeFile index st) = uploadProgress st /\
  result (removeFile index st) = result st /\
  showQR (removeFile index st) = showQR st /\
  qrLoading (removeFile index st) = qrLoading st /\
  copySuccess (removeFile index st) = copySuccess st /\
  ((index < 0 \/ Z.of_nat (List.length (selectedFiles st)) <= index)%Z ->
   removeFile index st = st) /\
  ((0 <= index < Z.of_nat (List.length (selectedFiles st)))%Z ->
   exists before x after,
     selectedFiles st = before ++ x :: after /\
     Z.of_nat (List.length before) = index /\
     selectedFiles (removeFile index st) = before ++ after).
Proof.
  repeat split; try reflexivity.
  - intros H. unfold removeFile, setSelectedFiles.
    rewrite filter_index_out by lia. now destruct st.
  - intros H. destruct (filter_index_in 0 index (selectedFiles st)) as
      (before & x & after & E & Hlen & Hf); [lia|].
    exists before, x, after. repeat split; [exact E | lia | exact Hf].
Qed.

Lemma removeFile_removes_one_witness :
  exists before x after,
    selectedFiles
      (handleFiles [Build_File (str "a") 1 0; Build_File (str "b") 2 1;
                    Build_File (str "c") 3 2] initial) =
      before ++ x :: after /\
    Z.of_nat (List.length before) = 1%Z /\
    selectedFiles
      (removeFile 1
         (handleFiles [Build_File (str "a") 1 0; Build_File (str "b") 2 1;
                       Build_File (str "c") 3 2] initial)) = before ++ after.
Proof.
  apply (proj2 (proj2 (proj2 (proj2 (proj2 (proj2 (proj2
    (removeFile_removes_one 1
       (handleFiles [Build_File (str "a") 1 0; Build_File (str "b") 2 1;
                     Build_File (str "c") 3 2] initial))))))))).
  simpl. lia.
Defined.

(** C4. [uploadFiles] called on an empty batch returns at once: the state is
    the one it was called in and no request is issued, whatever the network
    would have answered. *)
Theorem uploadFiles_empty_batch
    (origin : jsstring) (JSON_parse : jsstring -> option value)
    (TypeError_message : type_error -> jsstring)
    (st : state) (events : list ProgressEvent) (x : xhr) :
  selectedFiles st = [] ->
  uploadFiles origin JSON_parse TypeError_message st events x = (st, []).
Proof. intros H. unfold uploadFiles. now rewrite H. Qed.

Lemma uploadFiles_empty_batch_witness :
  uploadFiles (str "https://files.example") (fun _ => None) (fun _ => [])
    initial [Build_ProgressEvent true 5 10] (onload 200 (str "{}")) = (initial, []).
Proof.
  apply (uploadFiles_empty_batch (str "https://files.example") (fun _ => None)
           (fun _ => []) initial).
  reflexivity.
Defined.

(** *** Progress *)

Lemma onprogress_computable (e : ProgressEvent) (st : state) :
  lengthComputable e = true -> 0 < total e ->
  uploadProgress (onprogress e st) = percent (loaded e) (total e).
Proof.
  intros Hc Ht. unfold onprogress. rewrite Hc. simpl.
  unfold number_div, of_N.
  destruct (Qeq_bool (inject_Z (Z.of_N (total e))) 0) eqn:E; [|reflexivity].
  apply Qeq_bool_eq in E. unfold Qeq in E. simpl in E. lia.
Qed.

Lemma progressed_snoc (pre : list ProgressEvent) (e : ProgressEvent) (st : state) :
  progressed (pre ++ [e]) st = onprogress e (progressed pre st).
Proof. unfold progressed. now rewrite fold_left_app. Qed.

Lemma progressed_reported (t : N) (pre : list ProgressEvent) :
  0 < t -> same_total t pre ->
  forall (st : state) (l0 : N) (q0 : Q),
    uploadProgress st = Num q0 -> (q0 == ratio l0 t)%Q ->
    exists q, uploadProgress (progressed pre st) = Num q /\
              (q == ratio (reported l0 pre) t)%Q.
Proof.
  intros Ht Hsame. induction pre as [|e pre IH]; intros st l0 q0 Hst Hq.
  - exists q0. auto.
  - inversion Hsame as [|? ? He Hrest]; subst.
    unfold progressed, reported. simpl. fold (progressed pre (onprogress e st)).
    fold (reported (if lengthComputable e then loaded e else l0) pre).
    destruct (lengthComputable e) eqn:Hc.
    + apply (IH Hrest _ _ (ratio (loaded e) t)); [|reflexivity].
      rewrite onprogress_computable; auto; rewrite (He eq_refl); [reflexivity|assumption].
    + apply (IH Hrest _ _ q0); [|assumption].
      unfold onprogress. now rewrite Hc.
Qed.

Lemma nondecreasing_weaken (a b : N) (events : list ProgressEvent) :
  b <= a -> nondecreasing a events -> nondecreasing b events.
Proof. destruct events; simpl; [trivial|]. intros ? [? ?]. split; [lia|assumption]. Qed.

Lemma reported_le (pre : list ProgressEvent) :
  forall (l0 : N) (e : ProgressEvent) (post : list ProgressEvent),
    nondecreasing l0 (pre ++ e :: post) -> reported l0 pre <= loaded e.
Proof.
  induction pre as [|e0 pre IH]; intros l0 e post H.
  - simpl in *. tauto.
  - simpl in H. destruct H as [H0 H]. unfold reported. simpl.
    destruct (lengthComputable e0).
    + exact (IH _ _ _ H).
    + apply (IH _ _ post). exact (nondecreasing_weaken _ _ _ H0 H).
Qed.

Lemma ratio_le (a b t : N) : 0 < t -> a <= b -> (ratio a t <= ratio b t)%Q.
Proof.
  intros Ht Hab. unfold ratio, Qdiv.
  apply Qmult_le_compat_r; [|discriminate].
  apply Qmult_le_compat_r.
  - rewrite <- Zle_Qle. lia.
  - apply Qinv_le_0_compat. change 0%Q with (inject_Z 0). rewrite <- Zle_Qle. lia.
Qed.

(** C7. During one upload whose progress events report byte counts that never
    decrease against one positive total: the progress is zero when the
    request is sent; every event that reports a byte count sets it to
    loaded / total * 100, an event that reports none leaves it as it is; so
    it never decreases from one event to the next.  When the request ends,
    by a response or by a network error, the progress is zero again. *)
Theorem progress_monotone_then_reset
    (origin : jsstring) (JSON_parse : jsstring -> option value)
    (TypeError_message : type_error -> jsstring)
    (st : state) (events : list ProgressEvent) (x : xhr) (t : N) :
  selectedFiles st <> [] ->
  0 < t ->
  same_total t events ->
  nondecreasing 0 events ->
  uploadProgress (started st) = of_N 0 /\
  (forall pre e post,
      events = pre ++ e :: post ->
      number_le (uploadProgress (progressed pre (started st)))
                (uploadProgress (progressed (pre ++ [e]) (started st))) /\
      (lengthComputable e = true ->
       uploadProgress (progressed (pre ++ [e]) (started st)) = percent (loaded e) t) /\
      (lengthComputable e = false ->
       uploadProgress (progressed (pre ++ [e]) (started st)) =
       uploadProgress (progressed pre (started st)))) /\
  uploadProgress (fst (uploadFiles origin JSON_parse TypeError_message st events x)) = of_N 0.
Proof.
  intros Hfiles Ht Hsame Hmono. split; [reflexivity|]. split.
  - intros pre e post ->.
    assert (same_total t pre) as Hpre by (apply Forall_app in Hsame; tauto).
    assert (lengthComputable e = true -> total e = t) as He.
    { apply Forall_app in Hsame as [_ H]. now inversion H. }
    destruct (progressed_reported t pre Ht Hpre (started st) 0 0%Q) as (q & Eq & Hq);
      [reflexivity | unfold ratio, Qdiv; ring |].
    rewrite progressed_snoc, Eq.
    pose proof (reported_le pre 0 e post Hmono) as Hle.
    destruct (lengthComputable e) eqn:Hc.
    + rewrite onprogress_computable by (rewrite ?He; auto).
      rewrite (He eq_refl). repeat split; try discriminate.
      simpl. rewrite Hq. now apply ratio_le.
    + unfold onprogress. rewrite Hc, Eq. repeat split; try discriminate.
      simpl. apply Qle_refl.
  - unfold uploadFiles. destruct (selectedFiles st) as [|f fs]; [congruence|].
    reflexivity.
Qed.

Lemma progress_monotone_then_reset_witness :
  uploadProgress (started (handleFiles [Build_File (str "a") 10 0] initial)) = of_N 0 /\
  (forall pre e post,
      [Build_ProgressEvent true 2 10; Build_ProgressEvent false 5 0;
       Build_ProgressEvent true 10 10] = pre ++ e :: post ->
      number_le
        (uploadProgress
           (progressed pre (started (handleFiles [Build_File (str "a") 10 0] initial))))
        (uploadProgress
           (progressed (pre ++ [e])
              (started (handleFiles [Build_File (str "a") 10 0] initial)))) /\
      (lengthComputable e = true ->
       uploadProgress
         (progressed (pre ++ [e])
            (started (handleFiles [Build_File (str "a") 10 0] initial))) =
       percent (loaded e) 10) /\
      (lengthComputable e = false ->
       uploadProgress
         (progressed (pre ++ [e])
            (started (handleFiles [Build_File (str "a") 10 0] initial))) =
       uploadProgress
         (progressed pre (started (handleFiles [Build_File (str "a") 10 0] initial))))) /\
  uploadProgress
    (fst (uploadFiles (str "https://files.example") (fun _ => None) (fun _ => [])
            (handleFiles [Build_File (str "a") 10 0] initial)
            [Build_ProgressEvent true 2 10; Build_ProgressEvent false 5 0;
             Build_ProgressEvent true 10 10]
            onerror)) = of_N 0.
Proof.
  apply (progress_monotone_then_reset (str "https://files.example") (fun _ => None)
           (fun _ => []) (handleFiles [Build_File (str "a") 10 0] initial)
           [Build_ProgressEvent true 2 10; Build_ProgressEvent false 5 0;
            Build_ProgressEvent true 10 10] onerror 10).
  - discriminate.
  - reflexivity.
  - repeat (constructor; [simpl; intros H; try reflexivity; discriminate H|]).
    constructor.
  - simpl. lia.
Defined.

(** *** The end of the request *)

Lemma get_object (props : list (jsstring * value)) (p : property) :
  get (VObject props) p = ret (own p props).
Proof. reflexivity. Qed.

(** The chain of [||] on an object is the first truthy own value, and the
    value of [link] when there is none. *)
Lemma backendDownloadLink_of_object (props : list (jsstring * value)) :
  backendDownloadLink_of (VObject props) =
  ret (match transfer_reference props with
       | Some v => v
       | None => own link props
       end).
Proof.
  unfold backendDownloadLink_of, transfer_reference. rewrite !get_object.
  unfold own. cbn [flat_map bind ret].
  destruct (lookup (property_name downloadLink) props) as [a|];
    destruct (lookup (property_name url) props) as [b|];
    destruct (lookup (property_name link) props) as [c|];
    cbn [app find truthy];
    repeat match goal with
           | |- context [truthy ?v] => destruct (truthy v) eqn:?
           end;
    cbn [truthy] in *; try reflexivity; try congruence.
Qed.

Lemma transfer_reference_truthy (props : list (jsstring * value)) (v : value) :
  transfer_reference props = Some v -> truthy v = true.
Proof. unfold transfer_reference. intros H. now apply find_some in H. Qed.

Section Settle.

Variable origin : jsstring.
Variable JSON_parse : jsstring -> option value.
Variable TypeError_message : type_error -> jsstring.

Lemma try_block_unusable (captured : list File) (x : xhr) (st : state)
    (response : value) :
  promise JSON_parse x = inr response ->
  unusable response = true ->
  exists t, try_block origin JSON_parse captured x st = inl (TypeError t).
Proof.
  intros Hp Hu. unfold try_block.
  rewrite Hp. cbn [bind].
  destruct response as [| |b|n|s|items|props|f]; try discriminate Hu.
  - eexists. reflexivity.
  - eexists. reflexivity.
  - eexists. reflexivity.
  - rewrite backendDownloadLink_of_object. cbn [bind ret].
    unfold unusable in Hu.
    destruct (transfer_reference props) as [v|] eqn:E; [|discriminate].
    unfold frontendDownloadUrl_of.
    rewrite (transfer_reference_truthy _ _ E).
    destruct v; try discriminate Hu; eexists; reflexivity.
Qed.

Lemma try_block_usable (captured : list File) (x : xhr) (st : state)
    (response : value) :
  promise JSON_parse x = inr response ->
  unusable response = false ->
  exists u l fs,
    try_block origin JSON_parse captured x st =
    inr (setSelectedFiles [] (setResult (Some (success u l fs response)) st)).
Proof.
  intros Hp Hu. unfold try_block.
  rewrite Hp. cbn [bind].
  destruct response as [| |b|n|s|items|props|f]; try discriminate Hu;
    try (do 3 eexists; reflexivity).
  rewrite backendDownloadLink_of_object. cbn [bind ret].
  unfold unusable in Hu. unfold frontendDownloadUrl_of.
  destruct (transfer_reference props) as [v|] eqn:E.
  - rewrite (transfer_reference_truthy _ _ E).
    destruct v; try discriminate Hu. do 3 eexists. reflexivity.
  - destruct (truthy (own link props)) eqn:T; [|do 3 eexists; reflexivity].
    exfalso. unfold transfer_reference in E.
    assert (In (own link props)
              (flat_map (fun p => match lookup (property_name p) props with
                                  | Some v => [v]
                                  | None => []
                                  end) [downloadLink; url; link])) as Hin.
    { apply in_flat_map. exists link. split; [simpl; tauto|].
      unfold own in *. destruct (lookup (property_name link) props);
        [now left|discriminate T]. }
    pose proof (find_none _ _ E _ Hin). congruence.
Qed.

Lemma try_block_reference (captured : list File) (text : jsstring) (st : state)
    (props : list (jsstring * value)) (l : jsstring) :
  JSON_parse text = Some (VObject props) ->
  transfer_reference props = Some (VString l) ->
  try_block origin JSON_parse captured (onload 200 text) st =
  inr (setSelectedFiles []
         (setResult
            (Some (success (toPublic origin l) (VString l)
                     (if truthy (own files props) then own files props
                      else names_of captured)
                     (VObject props)))
            st)).
Proof.
  intros Hp E. unfold try_block.
  cbn [promise N.eqb Pos.eqb]. rewrite Hp. cbn [bind ret].
  rewrite backendDownloadLink_of_object, E. cbn [bind ret].
  unfold frontendDownloadUrl_of.
  rewrite (transfer_reference_truthy _ _ E). reflexivity.
Qed.

Lemma promise_cases (x : xhr) :
  match x with
  | onerror => promise JSON_parse x = inl (Error (str "Upload failed - Network error"))
  | onload status text =>
      (status <> 200 /\
       promise JSON_parse x =
       inl (Error (if nonempty text then text else str "HTTP " ++ N_to_string status)))
      \/ (status = 200 /\ exists response, promise JSON_parse x = inr response)
  end.
Proof.
  destruct x as [status text|]; [|reflexivity].
  unfold promise. destruct (N.eqb_spec status 200) as [->|Hne]; [right|left; auto].
  split; [reflexivity|]. destruct (JSON_parse text); eexists; reflexivity.
Qed.

Lemma uploadFiles_settles (st : state) (events : list ProgressEvent) (x : xhr) :
  selectedFiles st <> [] ->
  fst (uploadFiles origin JSON_parse TypeError_message st events x) =
  settle origin JSON_parse TypeError_message (selectedFiles st) x (progressed events (started st)).
Proof.
  intros H. unfold uploadFiles.
  destruct (selectedFiles st); [congruence|reflexivity].
Qed.

Lemma settle_throw (captured : list File) (x : xhr) (st : state) (e : exn) :
  try_block origin JSON_parse captured x st = inl e ->
  result (settle origin JSON_parse TypeError_message captured x st) =
    Some (error (if nonempty (message_of TypeError_message e)
                 then message_of TypeError_message e else str "Upload failed")) /\
  status_of (settle origin JSON_parse TypeError_message captured x st) = Failed.
Proof.
  unfold settle. intros ->. split; reflexivity.
Qed.

Lemma settle_return (captured : list File) (x : xhr) (st : state)
    (u : jsstring) (l fs response : value) :
  try_block origin JSON_parse captured x st =
    inr (setSelectedFiles [] (setResult (Some (success u l fs response)) st)) ->
  result (settle origin JSON_parse TypeError_message captured x st) = Some (success u l fs response) /\
  selectedFiles (settle origin JSON_parse TypeError_message captured x st) = [] /\
  status_of (settle origin JSON_parse TypeError_message captured x st) = Succeeded.
Proof.
  unfold settle. intros ->.
  repeat split; reflexivity.
Qed.

Lemma try_block_promise_throw (captured : list File) (x : xhr) (st : state) (e : exn) :
  promise JSON_parse x = inl e -> try_block origin JSON_parse captured x st = inl e.
Proof. unfold try_block. now intros ->. Qed.

End Settle.

(** ** C1 *)

(** C1, as the code has it.  A call of [uploadFiles] on a non-empty batch
    ends failed or succeeded.  It ends failed exactly when the network fails,
    or the status is not 200 (201 and the like included), or the status is
    200 and the response cannot be used: it is [null], or a string (every
    body that [JSON.parse] rejects is kept as a string), or its first truthy
    link is not a string.  The message is the network sentinel in the first
    case; in the second the body when it is not empty, else HTTP followed by
    the status; in the third the message of the engine's [TypeError], or
    Upload failed when that is empty. *)
Theorem upload_failure
    (origin : jsstring) (JSON_parse : jsstring -> option value)
    (TypeError_message : type_error -> jsstring)
    (st : state) (events : list ProgressEvent) (x : xhr) :
  selectedFiles st <> [] ->
  (status_of (fst (uploadFiles origin JSON_parse TypeError_message st events x)) = Failed \/
   status_of (fst (uploadFiles origin JSON_parse TypeError_message st events x)) = Succeeded) /\
  (status_of (fst (uploadFiles origin JSON_parse TypeError_message st events x)) = Failed <->
   x = onerror \/
   (exists status text, x = onload status text /\ status <> 200) \/
   (exists response, promise JSON_parse x = inr response /\ unusable response = true)) /\
  (x = onerror ->
   result (fst (uploadFiles origin JSON_parse TypeError_message st events x)) =
   Some (error (str "Upload failed - Network error"))) /\
  (forall status text,
      x = onload status text -> status <> 200 ->
      result (fst (uploadFiles origin JSON_parse TypeError_message st events x)) =
      Some (error (if nonempty text then text else str "HTTP " ++ N_to_string status))) /\
  (forall response,
      promise JSON_parse x = inr response -> unusable response = true ->
      exists t,
        result (fst (uploadFiles origin JSON_parse TypeError_message st events x)) =
        Some (error (if nonempty (TypeError_message t) then TypeError_message t
                     else str "Upload failed"))) /\
  (forall text,
      x = onload 200 text -> JSON_parse text = None ->
      status_of (fst (uploadFiles origin JSON_parse TypeError_message st events x)) = Failed).
Proof.
  intros Hfiles. rewrite (uploadFiles_settles _ _ _ _ _ _ Hfiles).
  set (captured := selectedFiles st). set (s := progressed events (started st)).
  assert (forall response, promise JSON_parse x = inr response ->
            unusable response = true ->
            exists t, result (settle origin JSON_parse TypeError_message captured x s) =
                      Some (error (if nonempty (TypeError_message t) then TypeError_message t
                                   else str "Upload failed")) /\
                      status_of (settle origin JSON_parse TypeError_message captured x s)
                      = Failed) as Hunusable.
  { intros response Hp Hu.
    destruct (try_block_unusable origin JSON_parse captured x s response Hp Hu) as [t Ht].
    exists t. exact (settle_throw origin JSON_parse TypeError_message _ _ _ _ Ht). }
  assert (forall status text, x = onload status text -> status <> 200 ->
            result (settle origin JSON_parse TypeError_message captured x s) =
            Some (error (if nonempty text then text else str "HTTP " ++ N_to_string status))
            /\ status_of (settle origin JSON_parse TypeError_message captured x s) = Failed)
    as Hstatus.
  { intros status text -> Hne.
    assert (promise JSON_parse (onload status text) =
            inl (Error (if nonempty text then text else str "HTTP " ++ N_to_string status)))
      as Hp.
    { unfold promise. now destruct (N.eqb_spec status 200). }
    apply (try_block_promise_throw origin JSON_parse captured _ s) in Hp.
    destruct (settle_throw origin JSON_parse TypeError_message _ _ _ _ Hp) as [Hr Hs].
    split; [|exact Hs]. rewrite Hr. cbn [message_of].
    destruct text; reflexivity. }
  assert (x = onerror ->
          result (settle origin JSON_parse TypeError_message captured x s) =
          Some (error (str "Upload failed - Network error")) /\
          status_of (settle origin JSON_parse TypeError_message captured x s) = Failed)
    as Herror.
  { intros ->. split; reflexivity. }
  split; [|split; [|split; [|split; [|split]]]].
  - pose proof (promise_cases JSON_parse x) as Hc.
    destruct x as [status text|]; [|left; now apply Herror].
    destruct Hc as [[Hne _]|[-> [response Hp]]]; [left; now apply (Hstatus status text)|].
    destruct (unusable response) eqn:Hu.
    + left. now destruct (Hunusable response Hp Hu) as (t & _ & Hs).
    + right.
      destruct (try_block_usable origin JSON_parse captured _ s response Hp Hu)
        as (u & l & fs & Ht).
      now apply (settle_return origin JSON_parse TypeError_message) in Ht.
  - split.
    + intros Hfailed. pose proof (promise_cases JSON_parse x) as Hc.
      destruct x as [status text|]; [|now left]. right.
      destruct Hc as [[Hne _]|[-> [response Hp]]]; [left; eauto|right].
      exists response. split; [exact Hp|].
      destruct (unusable response) eqn:Hu; [reflexivity|exfalso].
      destruct (try_block_usable origin JSON_parse captured _ s response Hp Hu)
        as (u & l & fs & Ht).
      apply (settle_return origin JSON_parse TypeError_message) in Ht.
      destruct Ht as (_ & _ & Hs). congruence.
    + intros [->|[(status & text & -> & Hne)|(response & Hp & Hu)]].
      * now apply Herror.
      * now apply (Hstatus status text).
      * now destruct (Hunusable response Hp Hu) as (t & _ & Hs).
  - intros E. now apply Herror.
  - intros status text E Hne. now apply Hstatus.
  - intros response Hp Hu. destruct (Hunusable response Hp Hu) as (t & Hr & _). eauto.
  - intros text -> Hnone.
    destruct (Hunusable (VString text)) as (t & _ & Hs); [|reflexivity|exact Hs].
    unfold promise. cbn [N.eqb Pos.eqb]. now rewrite Hnone.
Qed.

(** The mock server answers HTTP 500 with the body disk full: the session
    ends failed and the message is the body. *)
Lemma upload_failure_witness :
  result
    (fst (uploadFiles (str "https://files.example") (JSON_parse_table []) (fun _ => [])
            (handleFiles two_files initial) [] (onload 500 (str "disk full")))) =
  Some (error (str "disk full")).
Proof.
  apply (proj1 (proj2 (proj2 (proj2
    (upload_failure (str "https://files.example") (JSON_parse_table []) (fun _ => [])
       (handleFiles two_files initial) [] (onload 500 (str "disk full"))
       ltac:(discriminate)))))
    500 (str "disk full") eq_refl).
  discriminate.
Defined.

(** As the specification states it, the property fails on a response with
    status 201: the status is of the 2xx class, there is no network failure
    and the body parses, yet the session ends failed, with the body as the
    message.  And on status 200 with a body that is not JSON the message is
    not the body but the text of the engine's [TypeError] (here the text V8
    gives). *)
Lemma upload_failure_not_only_non_2xx :
  (200 <=? 201) && (201 <? 300) = true /\
  JSON_parse_table [(link_body, link_object)] link_body = Some link_object /\
  status_of
    (fst (uploadFiles (str "https://files.example")
            (JSON_parse_table [(link_body, link_object)]) (fun _ => [])
            (handleFiles two_files initial) [] (onload 201 link_body))) = Failed /\
  result
    (fst (uploadFiles (str "https://files.example")
            (JSON_parse_table [(link_body, link_object)]) (fun _ => [])
            (handleFiles two_files initial) [] (onload 201 link_body))) =
  Some (error link_body) /\
  JSON_parse_table [(link_body, link_object)] (str "disk full") = None /\
  result
    (fst (uploadFiles (str "https://files.example")
            (JSON_parse_table [(link_body, link_object)])
            (fun _ => str "backendDownloadLink.match is not a function")
            (handleFiles two_files initial) [] (onload 200 (str "disk full")))) =
  Some (error (str "backendDownloadLink.match is not a function")).
Proof. repeat split; reflexivity. Qed.

(** ** C2 *)

(** C2, as the code has it.  When the status is 200, the body parses to an
    object and the first truthy value among its [downloadLink], [url] and
    [link], in that order, is a string, the call ends succeeded: the internal
    URL is that string, the public URL is its translation, the files are
    those of the response when it lists some and else the names of the batch,
    and the batch is empty.  One request was sent.  For a link /download/id
    whose id is not empty and has no line terminator, the public URL is the
    origin followed by /download/id. *)
Theorem upload_success
    (origin : jsstring) (JSON_parse : jsstring -> option value)
    (TypeError_message : type_error -> jsstring)
    (st : state) (events : list ProgressEvent) (text : jsstring)
    (props : list (jsstring * value)) (l : jsstring) :
  selectedFiles st <> [] ->
  JSON_parse text = Some (VObject props) ->
  transfer_reference props = Some (VString l) ->
  status_of (fst (uploadFiles origin JSON_parse TypeError_message st events
                    (onload 200 text))) = Succeeded /\
  result (fst (uploadFiles origin JSON_parse TypeError_message st events
                 (onload 200 text))) =
    Some (success (toPublic origin l) (VString l)
            (if truthy (own files props) then own files props
             else names_of (selectedFiles st))
            (VObject props)) /\
  selectedFiles (fst (uploadFiles origin JSON_parse TypeError_message st events
                        (onload 200 text))) = [] /\
  snd (uploadFiles origin JSON_parse TypeError_message st events (onload 200 text)) =
    [POST (str "https://upload-qodp.onrender.com/upload")
       (List.map (fun f => (str "files", f)) (selectedFiles st))] /\
  (forall id, l = str "/download/" ++ id -> id <> [] -> forallb dot id = true ->
              toPublic origin l = origin ++ str "/download/" ++ id).
Proof.
  intros Hfiles Hp E. rewrite (uploadFiles_settles _ _ _ _ _ _ Hfiles).
  pose proof (try_block_reference origin JSON_parse (selectedFiles st) text
                (progressed events (started st)) props l Hp E) as Ht.
  apply (settle_return origin JSON_parse TypeError_message) in Ht.
  destruct Ht as (Hr & Hs & Hst). repeat split; try assumption.
  - unfold uploadFiles. destruct (selectedFiles st); [congruence|reflexivity].
  - intros id -> Hne Hdot. unfold toPublic. now rewrite download_re_literal.
Qed.

(** The mock server answers with the link /download/abc123 for two files:
    the session ends succeeded, the public URL is the origin followed by the
    link, and the batch is empty. *)
Lemma upload_success_witness :
  status_of
    (fst (uploadFiles (str "https://files.example")
            (JSON_parse_table [(link_body, link_object)]) (fun _ => [])
            (handleFiles two_files initial) [] (onload 200 link_body))) = Succeeded /\
  result
    (fst (uploadFiles (str "https://files.example")
            (JSON_parse_table [(link_body, link_object)]) (fun _ => [])
            (handleFiles two_files initial) [] (onload 200 link_body))) =
    Some (success (str "https://files.example/download/abc123")
            (VString (str "/download/abc123"))
            (names_of two_files) link_object) /\
  selectedFiles
    (fst (uploadFiles (str "https://files.example")
            (JSON_parse_table [(link_body, link_object)]) (fun _ => [])
            (handleFiles two_files initial) [] (onload 200 link_body))) = [].
Proof.
  pose proof (upload_success (str "https://files.example")
                (JSON_parse_table [(link_body, link_object)]) (fun _ => [])
                (handleFiles two_files initial) [] link_body
                [(str "downloadLink", VString (str "/download/abc123"))]
                (str "/download/abc123")
                ltac:(discriminate) eq_refl eq_refl) as (H1 & H2 & H3 & _).
  repeat split; assumption.
Defined.

(** As the specification states it, the property fails on a response that
    succeeds with status 201 (the session ends failed), on a link
    /download/id whose id holds a line feed (the public URL is the service
    base followed by the link, not the origin followed by it), and on a body
    whose first truthy link is the number 5 although its [url] is a link (the
    session ends failed). *)
Lemma upload_success_fails :
  status_of
    (fst (uploadFiles (str "https://files.example")
            (JSON_parse_table [(link_body, link_object)]) (fun _ => [])
            (handleFiles two_files initial) [] (onload 201 link_body))) = Failed /\
  result
    (fst (uploadFiles (str "https://files.example")
            (JSON_parse_table
               [(str "lf", VObject [(str "downloadLink",
                                     VString (str "/download/" ++ [97; 10; 98]))])])
            (fun _ => [])
            (handleFiles two_files initial) [] (onload 200 (str "lf")))) =
    Some (success (str "https://upload-qodp.onrender.com/download/" ++ [97; 10; 98])
            (VString (str "/download/" ++ [97; 10; 98]))
            (names_of two_files)
            (VObject [(str "downloadLink", VString (str "/download/" ++ [97; 10; 98]))])) /\
  status_of
    (fst (uploadFiles (str "https://files.example")
            (JSON_parse_table
               [(str "five", VObject [(str "downloadLink", VNumber (of_N 5));
                                      (str "url", VString (str "/download/abc123"))])])
            (fun _ => [])
            (handleFiles two_files initial) [] (onload 200 (str "five")))) = Failed.
Proof. repeat split; reflexivity. Qed.

(** ** The download component *)

Lemma filename_re_cons (c : N) (s : jsstring) :
  filename_re (c :: s) =
  match filename_re_at (c :: s) with Some g => Some g | None => filename_re s end.
Proof. reflexivity. Qed.

Lemma filename_re_leftmost (pre s : jsstring) :
  (forall a b, pre = a ++ b -> b <> [] -> filename_re_at (b ++ s) = None) ->
  filename_re (pre ++ s) = filename_re s.
Proof. apply leftmost_skip. Qed.

Lemma filename_re_at_is_match (s g : jsstring) :
  filename_re_at s = Some g -> filename_re s = Some g.
Proof. apply leftmost_here. Qed.

(** The literal filename has its first letter nowhere else: an occurrence
    cannot begin inside [b] and run into a following literal. *)
Lemma strip_prefix_filename_straddle (b rest : jsstring) :
  b <> [] ->
  strip_prefix (str "filename") b = None ->
  strip_prefix (str "filename") (b ++ str "filename" ++ rest) = None.
Proof.
  intros Hb H.
  change (str "filename") with [102; 105; 108; 101; 110; 97; 109; 101] in *.
  destruct b as [|c0 b]; [congruence|]. clear Hb.
  revert H. cbn [strip_prefix app].
  destruct (102 =? c0); [|reflexivity].
  do 7 (destruct b as [|? b]; cbn [strip_prefix app];
        [ simpl; intros H; try reflexivity; discriminate H
        | match goal with |- context [if ?x =? ?y then _ else _] =>
            destruct (x =? y); [|reflexivity] end ]).
  discriminate.
Qed.

Lemma filename_re_after (pre rest : jsstring) :
  includes (str "filename") pre = false ->
  filename_re (pre ++ str "filename" ++ rest) = filename_re (str "filename" ++ rest).
Proof.
  intros H. apply filename_re_leftmost. intros a b -> Hb.
  apply includes_suffix, includes_head in H.
  unfold filename_re_at. now rewrite (strip_prefix_filename_straddle b rest Hb H).
Qed.

Lemma filename_re_none (cd : jsstring) :
  includes (str "filename") cd = false -> filename_re cd = None.
Proof.
  induction cd as [|c cd IH]; intros H.
  - reflexivity.
  - rewrite filename_re_cons. unfold filename_re_at.
    rewrite (includes_head _ _ H). apply IH.
    exact (includes_suffix _ [c] cd H).
Qed.

Lemma dropWhile_run (f : N -> bool) (run rest : jsstring) (c : N) :
  forallb f run = true -> f c = false ->
  dropWhile f (run ++ c :: rest) = c :: rest.
Proof.
  intros Hrun Hc. induction run as [|x run IH]; simpl.
  - now rewrite Hc.
  - simpl in Hrun. apply andb_prop in Hrun as [-> Hrun]. auto.
Qed.

Lemma takeWhile_run (f : N -> bool) (run rest : jsstring) :
  forallb f run = true ->
  match rest with [] => True | c :: _ => f c = false end ->
  takeWhile f (run ++ rest) = run.
Proof.
  intros Hrun Hrest. induction run as [|x run IH]; simpl.
  - destruct rest as [|c rest]; [reflexivity|]. simpl. now rewrite Hrest.
  - simpl in Hrun. apply andb_prop in Hrun as [-> Hrun]. now rewrite IH.
Qed.

Lemma lazy_until_run (q : N) (run rest : jsstring) :
  forallb (fun c => dot c && negb (c =? q)) run = true ->
  lazy_until q (run ++ q :: rest) = Some run.
Proof.
  intros Hrun. induction run as [|x run IH]; simpl.
  - now rewrite N.eqb_refl.
  - simpl in Hrun. apply andb_prop in Hrun as [Hx Hrun].
    apply andb_prop in Hx as [Hdot Hq].
    destruct (x =? q); [discriminate|]. rewrite Hdot, (IH Hrun). reflexivity.
Qed.

(** The file name pattern on a header that carries the parameter once, with
    a quoted value. *)
Lemma filename_re_quoted (pre ext nm post : jsstring) (q : N) :
  includes (str "filename") pre = false ->
  forallb name_char ext = true ->
  is_quote q = true ->
  forallb (fun c => dot c && negb (c =? q)) nm = true ->
  filename_re (pre ++ str "filename" ++ ext ++ 61 :: q :: nm ++ q :: post) =
  Some (q :: nm ++ [q]).
Proof.
  intros Hpre Hext Hq Hnm. rewrite (filename_re_after pre _ Hpre).
  apply filename_re_at_is_match. unfold filename_re_at.
  rewrite strip_prefix_app, (dropWhile_run name_char ext _ 61 Hext eq_refl).
  unfold filename_value. now rewrite Hq, (lazy_until_run q nm post Hnm).
Qed.

(** The same with a value that is not quoted and ends at a semicolon, a line
    feed or the end of the header. *)
Lemma filename_re_unquoted (pre ext nm post : jsstring) :
  includes (str "filename") pre = false ->
  forallb name_char ext = true ->
  forallb (fun c => value_char c && negb (is_quote c)) nm = true ->
  match post with [] => True | c :: _ => value_char c = false end ->
  filename_re (pre ++ str "filename" ++ ext ++ 61 :: nm ++ post) = Some nm.
Proof.
  intros Hpre Hext Hnm Hpost. rewrite (filename_re_after pre _ Hpre).
  apply filename_re_at_is_match. unfold filename_re_at.
  rewrite strip_prefix_app, (dropWhile_run name_char ext _ 61 Hext eq_refl).
  f_equal.
  assert (forallb value_char nm = true) as Hv.
  { clear -Hnm. induction nm as [|x nm IH]; [reflexivity|]. simpl in *.
    apply andb_prop in Hnm as [Hx Hnm]. apply andb_prop in Hx as [-> _]. auto. }
  destruct nm as [|x nm].
  - simpl. destruct post as [|c post]; [reflexivity|].
    unfold filename_value.
    destruct (is_quote c) eqn:Hc.
    + destruct (lazy_until c post) eqn:L.
      * exfalso. unfold is_quote, value_char in *.
        destruct (N.eqb_spec c 39) as [->|]; [discriminate Hpost|].
        destruct (N.eqb_spec c 34) as [->|]; [discriminate Hpost|discriminate Hc].
      * simpl. now rewrite Hpost.
    + simpl. now rewrite Hpost.
  - simpl in Hnm. apply andb_prop in Hnm as [Hx _].
    apply andb_prop in Hx as [_ Hx]. apply negb_true_iff in Hx.
    change ((x :: nm) ++ post) with (x :: nm ++ post).
    unfold filename_value. rewrite Hx.
    exact (takeWhile_run value_char (x :: nm) post Hv Hpost).
Qed.

Lemma remove_quotes_id (s : jsstring) :
  forallb (fun c => negb (is_quote c)) s = true -> remove_quotes s = s.
Proof.
  unfold remove_quotes. induction s as [|c s IH]; [reflexivity|]. simpl.
  intros H. apply andb_prop in H as [-> H]. now rewrite IH.
Qed.

Lemma remove_quotes_quoted (q : N) (nm : jsstring) :
  is_quote q = true -> remove_quotes (q :: nm ++ [q]) = remove_quotes nm.
Proof.
  intros Hq. unfold remove_quotes. simpl. rewrite Hq. simpl.
  rewrite filter_app. simpl. rewrite Hq. simpl. apply app_nil_r.
Qed.

(** *** [parseInt] on a decimal numeral *)

Lemma digit_value_decimal (c : N) :
  is_decimal_digit c = true -> digit_value 10 c = Some (c - 48).
Proof.
  unfold is_decimal_digit, digit_value. intros H. rewrite H.
  apply andb_prop in H as [H1 H2]. apply N.leb_le in H1, H2.
  destruct (N.ltb_spec (c - 48) 10); [reflexivity|lia].
Qed.

Lemma digit_value_other (c : N) :
  is_decimal_digit c = false -> digit_value 10 c = None.
Proof.
  unfold is_decimal_digit, digit_value. intros H. rewrite H.
  destruct ((97 <=? c) && (c <=? 122)) eqn:A.
  - apply andb_prop in A as [A1 A2]. apply N.leb_le in A1, A2.
    destruct (N.ltb_spec (c - 87) 10); [lia|reflexivity].
  - destruct ((65 <=? c) && (c <=? 90)) eqn:B; [|reflexivity].
    apply andb_prop in B as [B1 B2]. apply N.leb_le in B1, B2.
    destruct (N.ltb_spec (c - 55) 10); [lia|reflexivity].
Qed.

Lemma parse_digits_decimal (digits rest : jsstring) :
  forallb is_decimal_digit digits = true ->
  match rest with [] => True | c :: _ => is_decimal_digit c = false end ->
  forall acc,
    parse_digits 10 (digits ++ rest) acc =
    match digits with
    | [] => acc
    | _ :: _ => Some (decimal_value (match acc with Some a => a | None => 0 end) digits)
    end.
Proof.
  intros Hd Hrest. induction digits as [|d digits IH]; intros acc.
  - destruct rest as [|c rest]; [reflexivity|]. simpl.
    now rewrite (digit_value_other c Hrest).
  - simpl in Hd. apply andb_prop in Hd as [Hd Hds].
    change ((d :: digits) ++ rest) with (d :: digits ++ rest).
    cbn [parse_digits]. rewrite (digit_value_decimal d Hd), (IH Hds).
    destruct digits; reflexivity.
Qed.

Lemma decimal_digit_not_space (c : N) :
  is_decimal_digit c = true ->
  is_white_space c = false /\ (c =? 45) = false /\ (c =? 43) = false /\
  (c =? 120) = false /\ (c =? 88) = false.
Proof.
  unfold is_decimal_digit, is_white_space. intros H.
  apply andb_prop in H as [H1 H2]. apply N.leb_le in H1, H2.
  repeat match goal with
         | |- context [?a =? ?b] => destruct (N.eqb_spec a b); [lia|]
         end.
  destruct (N.leb_spec 8192 c); [lia|]. auto.
Qed.

(** An integer below 2^53 is a double. *)
Lemma integer_number_exact (n : N) :
  n < 2 ^ 53 -> integer_number 1 n = of_N n.
Proof.
  intros H. unfold integer_number, to_double.
  destruct (N.ltb_spec n (2 ^ 53)); [|lia].
  unfold of_Z, of_N. now rewrite Z.mul_1_l.
Qed.

(** [parseInt] of a decimal numeral below 2^53 followed by something that is
    neither a digit nor the letter x is the value of the numeral. *)
Lemma parseInt_decimal (digits rest : jsstring) :
  digits <> [] ->
  forallb is_decimal_digit digits = true ->
  decimal_value 0 digits < 2 ^ 53 ->
  match rest with
  | [] => True
  | c :: _ => is_decimal_digit c = false /\ c <> 120 /\ c <> 88
  end ->
  parseInt (digits ++ rest) = of_N (decimal_value 0 digits).
Proof.
  intros Hne Hd Hlt Hrest. destruct digits as [|d digits]; [congruence|]. clear Hne.
  pose proof Hd as Hd'. simpl in Hd'. apply andb_prop in Hd' as [Hd0 Hds].
  destruct (decimal_digit_not_space d Hd0) as (Hw & Hm & Hp & _).
  assert (match rest with [] => True | c :: _ => is_decimal_digit c = false end) as Hrest'
    by (destruct rest; tauto).
  unfold parseInt. change ((d :: digits) ++ rest) with (d :: digits ++ rest).
  cbn [dropWhile]. rewrite Hw, Hm, Hp.
  assert (match digits ++ rest with
          | x :: t => ((d =? 48) && ((x =? 120) || (x =? 88))) = false
          | [] => True
          end) as Hx.
  { destruct digits as [|x digits]; simpl.
    - destruct rest as [|x rest]; [trivial|]. destruct Hrest as (_ & H1 & H2).
      destruct (N.eqb_spec x 120); [congruence|].
      destruct (N.eqb_spec x 88); [congruence|]. apply andb_false_r.
    - simpl in Hds. apply andb_prop in Hds as [Hx _].
      destruct (decimal_digit_not_space x Hx) as (_ & _ & _ & -> & ->).
      apply andb_false_r. }
  assert (parse_digits 10 (d :: digits ++ rest) None =
          Some (decimal_value 0 (d :: digits))) as E
    by exact (parse_digits_decimal (d :: digits) rest Hd Hrest' None).
  destruct (digits ++ rest) as [|x t] eqn:T.
  - rewrite E. now apply integer_number_exact.
  - rewrite Hx, E. now apply integer_number_exact.
Qed.

(** ** C6 *)

Import DownloadPage.

Lemma nonempty_app_literal (pre rest : jsstring) (c : N) :
  nonempty (pre ++ c :: rest) = true.
Proof. now destruct pre. Qed.

(** C6, as the code has it.  After a response that succeeded and whose body
    could be read, the session has succeeded, the body was saved once under
    the derived file name, and the file information is this.
    The name is the value after the first parameter filename, extended or
    not, of [Content-Disposition], with every quote character removed: for a
    quoted value what stands between the quotes, be it empty, and for a bare
    value what stands before the next semicolon or line feed; it is the word
    download when the header is absent, does not hold the parameter, or
    gives it an empty bare value.
    The type is the [Content-Type], and application/octet-stream when that is
    absent or empty.
    The size is [parseInt] of the [Content-Length] when that is not empty:
    for a header that begins with a decimal numeral below 2^53, followed by
    nothing or by a character that is neither a digit nor the letter x, the
    value of the numeral.  It is the length of the body when the header is
    absent or empty. *)
Theorem download_fileInfo
    (st : DownloadPage.state) (id : jsstring) (r : Response) (b : Blob) :
  fileId st = Some id ->
  id <> [] ->
  ok r = true ->
  blob r = inr b ->
  downloadStatus (fst (useEffect (resolved r) st)) = DownloadPage.success /\
  fileInfo (fst (useEffect (resolved r) st)) =
    Some {| filename := filename_of (header r (str "content-disposition"));
            size := size_of (header r (str "content-length")) b;
            type := or_default (header r (str "content-type"))
                      (str "application/octet-stream") |} /\
  snd (useEffect (resolved r) st) =
    [Request (GET (str "https://upload-qodp.onrender.com/download/" ++ id)
                [(str "Accept", str "*/*")]);
     Save (filename_of (header r (str "content-disposition"))) b] /\
  (forall cd,
      cd = None \/ (exists h, cd = Some h /\ includes (str "filename") h = false) ->
      filename_of cd = str "download") /\
  (forall pre ext q nm post,
      includes (str "filename") pre = false ->
      forallb name_char ext = true ->
      is_quote q = true ->
      forallb (fun c => dot c && negb (c =? q)) nm = true ->
      filename_of (Some (pre ++ str "filename" ++ ext ++ 61 :: q :: nm ++ q :: post)) =
      remove_quotes nm) /\
  (forall pre ext nm post,
      includes (str "filename") pre = false ->
      forallb name_char ext = true ->
      forallb (fun c => value_char c && negb (is_quote c)) nm = true ->
      match post with [] => True | c :: _ => value_char c = false end ->
      filename_of (Some (pre ++ str "filename" ++ ext ++ 61 :: nm ++ post)) =
      match nm with [] => str "download" | _ :: _ => nm end) /\
  (forall d, or_default None d = d /\ or_default (Some []) d = d) /\
  (forall t d, t <> [] -> or_default (Some t) d = t) /\
  size_of None b = of_N (N.of_nat (List.length b)) /\
  size_of (Some []) b = of_N (N.of_nat (List.length b)) /\
  (forall h, h <> [] -> size_of (Some h) b = parseInt h) /\
  (forall digits rest,
      digits <> [] ->
      forallb is_decimal_digit digits = true ->
      decimal_value 0 digits < 2 ^ 53 ->
      match rest with
      | [] => True
      | c :: _ => is_decimal_digit c = false /\ c <> 120 /\ c <> 88
      end ->
      size_of (Some (digits ++ rest)) b = of_N (decimal_value 0 digits)).
Proof.
  intros Hid Hne Hok Hblob.
  assert (useEffect (resolved r) st =
          (setDownloadStatus DownloadPage.success
             (setFileInfo
                (Some {| filename := filename_of (header r (str "content-disposition"));
                         size := size_of (header r (str "content-length")) b;
                         type := or_default (header r (str "content-type"))
                                   (str "application/octet-stream") |})
                (setDownloadStatus loading st)),
           [Request (GET (str "https://upload-qodp.onrender.com/download/" ++ id)
                       [(str "Accept", str "*/*")]);
            Save (filename_of (header r (str "content-disposition"))) b])) as E.
  { unfold useEffect. rewrite Hid. apply nonempty_true in Hne. rewrite Hne.
    unfold downloadFile. now rewrite Hok, Hblob. }
  rewrite E. repeat split.
  - intros cd [->|(h & -> & Hh)]; [reflexivity|].
    unfold filename_of. rewrite (filename_re_none h Hh). now destruct (nonempty h).
  - intros pre ext q nm post Hpre Hext Hq Hnm. unfold filename_of.
    rewrite (filename_re_quoted pre ext nm post q Hpre Hext Hq Hnm).
    rewrite !app_assoc, nonempty_app_literal. cbn [nonempty].
    now apply remove_quotes_quoted.
  - intros pre ext nm post Hpre Hext Hnm Hpost. unfold filename_of.
    rewrite (filename_re_unquoted pre ext nm post Hpre Hext Hnm Hpost).
    rewrite !app_assoc, nonempty_app_literal.
    destruct nm as [|c nm]; [reflexivity|]. cbn [nonempty].
    apply remove_quotes_id. clear -Hnm.
    induction (c :: nm) as [|x l IH]; [reflexivity|]. simpl in *.
    apply andb_prop in Hnm as [Hx Hl]. apply andb_prop in Hx as [_ ->]. auto.
  - intros t d Ht. unfold or_default. apply nonempty_true in Ht. now rewrite Ht.
  - intros h Hh. unfold size_of. apply nonempty_true in Hh. now rewrite Hh.
  - intros digits rest Hd Hdigits Hlt Hrest. unfold size_of.
    rewrite (parseInt_decimal digits rest Hd Hdigits Hlt Hrest).
    destruct digits; [congruence|reflexivity].
Qed.

(** The response of the scenario: the attachment report.pdf of 2048 bytes. *)
Lemma download_fileInfo_witness :
  fileInfo (fst (mount (str "/download/abc123") (resolved report_response))) =
    Some {| filename := str "report.pdf"; size := of_N 2048;
            type := str "application/octet-stream" |} /\
  snd (mount (str "/download/abc123") (resolved report_response)) =
    [Request (GET (str "https://upload-qodp.onrender.com/download/abc123")
                [(str "Accept", str "*/*")]);
     Save (str "report.pdf") (repeat Byte.x00 2048)].
Proof.
  destruct (download_fileInfo (initial (str "/download/abc123")) (str "abc123")
              report_response (repeat Byte.x00 2048) eq_refl ltac:(discriminate)
              eq_refl eq_refl) as (_ & H1 & H2 & _).
  split; [exact H1 | exact H2].
Defined.

(** As the specification states it, the property fails on a
    [Content-Length] that is present and is not a number: the size is [NaN],
    not the five bytes retrieved.  And inside a quoted name a quote of the
    other kind is removed as well. *)
Lemma download_fileInfo_fails :
  fileInfo
    (fst (mount (str "/download/abc123")
            (resolved {| ok := true; status := 200; statusText := str "OK";
                         header := fun h =>
                           if string_eqb h (str "content-length")
                           then Some (str "abc") else None;
                         blob := inr (repeat Byte.x00 5) |}))) =
    Some {| filename := str "download"; size := NaN;
            type := str "application/octet-stream" |} /\
  NaN <> of_N (N.of_nat (List.length (repeat Byte.x00 5))) /\
  filename_of (Some (str "attachment; filename=" ++ [34] ++ str "a'b.txt" ++ [34])) =
    str "ab.txt".
Proof. repeat split; try reflexivity. discriminate. Qed.

(** ** C8 *)

Lemma format_nonzero_N (bytes : N) :
  0 < bytes ->
  format_nonzero (of_N bytes) =
  hundredths_to_string
    ((200 * Z.of_N bytes + 1024 ^ (Z.log2 (Z.of_N bytes) / 10))
     / (2 * 1024 ^ (Z.log2 (Z.of_N bytes) / 10)))%Z
  ++ str " " ++ unit_name (Z.log2 (Z.of_N bytes) / 10)%Z.
Proof.
  intros Hpos. set (b := Z.of_N bytes). assert (0 < b)%Z as Hb by (subst b; lia).
  unfold format_nonzero, of_N. fold b.
  destruct (Qle_bool (inject_Z b) 0) eqn:E.
  { apply Qle_bool_iff in E. change 0%Q with (inject_Z 0) in E.
    rewrite <- Zle_Qle in E. lia. }
  clear E.
  assert (log_floor (inject_Z b) = (Z.log2 b / 10)%Z) as ->.
  { unfold log_floor, ilog2.
    destruct (Qle_bool 1 (inject_Z b)) eqn:E.
    - simpl. now rewrite Z.div_1_r.
    - assert (Qle_bool 1 (inject_Z b) = true) as E'; [|congruence].
      apply Qle_bool_iff. change 1%Q with (inject_Z 1). rewrite <- Zle_Qle. lia. }
  set (i := (Z.log2 b / 10)%Z).
  assert (0 <= i)%Z as Hi by (subst i; apply Z.div_pos; [apply Z.log2_nonneg|lia]).
  set (K := (1024 ^ i)%Z). assert (0 < K)%Z as HK by (subst K; apply Z.pow_pos_nonneg; lia).
  do 2 f_equal. unfold toFixed2.
  rewrite (Zdiv_Qdiv (200 * b + K) (2 * K)).
  apply Qfloor_comp.
  change (1024%Q) with (inject_Z 1024). rewrite <- (Zpower_Qpower 1024 i Hi). fold K.
  rewrite inject_Z_plus, !inject_Z_mult.
  assert (~ inject_Z K == 0)%Q as HK'.
  { change 0%Q with (inject_Z 0). rewrite inject_Z_injective. lia. }
  field. exact HK'.
Qed.

Lemma log_floor_bounds (b : Z) :
  (0 < b < 1024 ^ 4)%Z ->
  (0 <= Z.log2 b / 10 <= 3)%Z /\
  (1024 ^ (Z.log2 b / 10) <= b < 1024 ^ (Z.log2 b / 10 + 1))%Z.
Proof.
  intros [Hpos Hlt].
  assert (0 <= Z.log2 b < 40)%Z as Hlog.
  { split; [apply Z.log2_nonneg|]. apply Z.log2_lt_pow2; [assumption|].
    now change (2 ^ 40)%Z with (1024 ^ 4)%Z. }
  destruct (Z.log2_spec b Hpos) as [Hlo Hhi].
  set (i := (Z.log2 b / 10)%Z).
  assert (10 * i <= Z.log2 b < 10 * i + 10)%Z as Hi.
  { subst i. pose proof (Z.div_mod (Z.log2 b) 10 ltac:(lia)).
    pose proof (Z.mod_pos_bound (Z.log2 b) 10 ltac:(lia)). lia. }
  assert (0 <= i <= 3)%Z as Hi3 by lia.
  split; [exact Hi3|].
  assert (forall k, 0 <= k -> 1024 ^ k = 2 ^ (10 * k))%Z as Hpow.
  { intros k Hk. change 1024%Z with (2 ^ 10)%Z. now rewrite <- Z.pow_mul_r by lia. }
  rewrite !Hpow by lia. split.
  - apply Z.le_trans with (2 ^ Z.log2 b)%Z; [|assumption].
    apply Z.pow_le_mono_r; lia.
  - apply Z.lt_le_trans with (2 ^ Z.succ (Z.log2 b))%Z; [assumption|].
    apply Z.pow_le_mono_r; lia.
Qed.

(** C8, as the code has it.  Zero is rendered 0 Bytes.  A byte count below
    1024^4 is rendered as a number, a space and a unit: the unit is the one
    of index [i] in Bytes, KB, MB, GB, where 1024^i is the largest power of
    1024 not above the count, and the number is the count divided by 1024^i,
    rounded to the nearest hundredth (upwards at a tie) and written without
    trailing zeros.  So 1024 is rendered 1 KB and 1536 is rendered 1.5 KB.
    Both components render byte counts alike. *)
Theorem formatFileSize_rendering (bytes : N) :
  FileUploadService.formatFileSize (of_N 0) = str "0 Bytes" /\
  FileUploadService.formatFileSize (of_N 1024) = str "1 KB" /\
  FileUploadService.formatFileSize (of_N 1536) = str "1.5 KB" /\
  DownloadPage.formatFileSize (of_N bytes) = FileUploadService.formatFileSize (of_N bytes) /\
  (0 < bytes < 1024 ^ 4 ->
   exists (i n : Z) (unit : jsstring),
     nth_error sizes (Z.to_nat i) = Some unit /\
     (0 <= i <= 3)%Z /\
     (1024 ^ i <= Z.of_N bytes < 1024 ^ (i + 1))%Z /\
     (2 * 1024 ^ i * n <= 200 * Z.of_N bytes + 1024 ^ i < 2 * 1024 ^ i * (n + 1))%Z /\
     FileUploadService.formatFileSize (of_N bytes) =
     hundredths_to_string n ++ str " " ++ unit).
Proof.
  split; [reflexivity|]. split; [reflexivity|]. split; [reflexivity|]. split.
  - unfold DownloadPage.formatFileSize, FileUploadService.formatFileSize, of_N,
      number_truthy.
    now destruct (Qeq_bool (inject_Z (Z.of_N bytes)) 0).
  - intros [Hpos Hlt].
    assert (0 < Z.of_N bytes < 1024 ^ 4)%Z as Hb.
    { split; [lia|]. change (1024 ^ 4)%Z with (Z.of_N (1024 ^ 4)). lia. }
    destruct (log_floor_bounds _ Hb) as [Hi Hpow].
    set (i := (Z.log2 (Z.of_N bytes) / 10)%Z) in *.
    assert (0 < 1024 ^ i)%Z as HK by (apply Z.pow_pos_nonneg; lia).
    exists i, ((200 * Z.of_N bytes + 1024 ^ i) / (2 * 1024 ^ i))%Z,
      (nth (Z.to_nat i) sizes (str "undefined")).
    split; [|split; [exact Hi|split; [exact Hpow|split]]].
    + apply nth_error_nth'. simpl. lia.
    + pose proof (Z.div_mod (200 * Z.of_N bytes + 1024 ^ i) (2 * 1024 ^ i) ltac:(lia)).
      pose proof (Z.mod_pos_bound (200 * Z.of_N bytes + 1024 ^ i) (2 * 1024 ^ i)
                    ltac:(lia)).
      lia.
    + unfold FileUploadService.formatFileSize, of_N.
      destruct (Qeq_bool (inject_Z (Z.of_N bytes)) 0) eqn:E.
      { apply Qeq_bool_iff in E. change 0%Q with (inject_Z 0) in E.
        rewrite inject_Z_injective in E. lia. }
      fold (of_N bytes). rewrite (format_nonzero_N bytes Hpos). fold i.
      do 2 f_equal. unfold unit_name.
      destruct (Z.ltb_spec i 0); [lia|reflexivity].
Qed.

Lemma formatFileSize_rendering_witness :
  exists (i n : Z) (unit : jsstring),
    nth_error sizes (Z.to_nat i) = Some unit /\
    (0 <= i <= 3)%Z /\
    (1024 ^ i <= Z.of_N 123456789 < 1024 ^ (i + 1))%Z /\
    (2 * 1024 ^ i * n <= 200 * Z.of_N 123456789 + 1024 ^ i < 2 * 1024 ^ i * (n + 1))%Z /\
    FileUploadService.formatFileSize (of_N 123456789) =
    hundredths_to_string n ++ str " " ++ unit.
Proof.
  apply (proj2 (proj2 (proj2 (proj2 (formatFileSize_rendering 123456789))))).
  split; reflexivity.
Defined.

(** The examples of the specification fail: 1024 is rendered 1 KB, not
    1.00 KB, and 1536 is rendered 1.5 KB, not 1.50 KB. *)
Lemma formatFileSize_drops_trailing_zeros :
  FileUploadService.formatFileSize (of_N 1024) = str "1 KB" /\
  str "1 KB" <> str "1.00 KB" /\
  FileUploadService.formatFileSize (of_N 1536) = str "1.5 KB" /\
  str "1.5 KB" <> str "1.50 KB" /\
  DownloadPage.formatFileSize (of_N 1024) = str "1 KB" /\
  DownloadPage.formatFileSize (of_N 1536) = str "1.5 KB".
Proof. repeat split; try reflexivity; discriminate. Qed.

(** * Further properties of the upload component *)

Section UploadCalls.

Import FileUploadService.

Variable origin : jsstring.
Variable JSON_parse : jsstring -> option value.
Variable TypeError_message : type_error -> jsstring.

(** The [try] block sets the state only at its end: it is the computation
    of the result followed by the two setters. *)
Lemma try_block_outcome (captured : list File) (x : xhr) (st : state) :
  try_block origin JSON_parse captured x st =
  match outcome origin JSON_parse captured x with
  | inl e => inl e
  | inr r => inr (setSelectedFiles [] (setResult (Some r) st))
  end.
Proof.
  unfold try_block, outcome, bind.
  destruct (promise JSON_parse x) as [e|response]; [reflexivity|].
  destruct (backendDownloadLink_of response) as [e|l]; [reflexivity|].
  destruct (frontendDownloadUrl_of origin l) as [e|u]; [reflexivity|].
  destruct (get response files) as [e|fs]; reflexivity.
Qed.

Lemma onprogress_frame (e : ProgressEvent) (st : state) :
  selectedFiles (onprogress e st) = selectedFiles st /\
  isUploading (onprogress e st) = isUploading st /\
  result (onprogress e st) = result st /\
  showQR (onprogress e st) = showQR st /\
  qrLoading (onprogress e st) = qrLoading st /\
  copySuccess (onprogress e st) = copySuccess st.
Proof. unfold onprogress. destruct (lengthComputable e); repeat split. Qed.

Lemma progressed_frame (events : list ProgressEvent) (st : state) :
  selectedFiles (progressed events st) = selectedFiles st /\
  isUploading (progressed events st) = isUploading st /\
  result (progressed events st) = result st /\
  showQR (progressed events st) = showQR st /\
  qrLoading (progressed events st) = qrLoading st /\
  copySuccess (progressed events st) = copySuccess st.
Proof.
  revert st. induction events as [|e events IH]; intros st; [repeat split|].
  unfold progressed. simpl. fold (progressed events (onprogress e st)).
  destruct (IH (onprogress e st)) as (-> & -> & -> & -> & -> & ->).
  apply onprogress_frame.
Qed.

Lemma settle_outcome (captured : list File) (x : xhr) (st : state) :
  settle origin JSON_parse TypeError_message captured x st =
  match outcome origin JSON_parse captured x with
  | inr r =>
      mkState [] false (of_N 0) (Some r) (showQR st) (qrLoading st) (copySuccess st)
  | inl e =>
      mkState (selectedFiles st) false (of_N 0)
        (Some (error (if nonempty (message_of TypeError_message e)
                      then message_of TypeError_message e else str "Upload failed")))
        (showQR st) (qrLoading st) (copySuccess st)
  end.
Proof.
  unfold settle. rewrite try_block_outcome.
  destruct (outcome origin JSON_parse captured x); reflexivity.
Qed.

Lemma outcome_never_error (captured : list File) (x : xhr) (m : jsstring) :
  outcome origin JSON_parse captured x <> inr (error m).
Proof.
  unfold outcome, bind.
  destruct (promise JSON_parse x) as [e|response]; [discriminate|].
  destruct (backendDownloadLink_of response) as [e|l]; [discriminate|].
  destruct (frontendDownloadUrl_of origin l) as [e|u]; [discriminate|].
  destruct (get response files) as [e|fs]; discriminate.
Qed.

(** X1. However a call of [uploadFiles] on a non-empty batch ends, it has
    sent exactly one request, carrying every file of the batch in order under
    the field files; the component is no longer uploading and its QR and copy
    flags are as before.  When the call ends failed the batch is the one it
    was called with, so a retry sends the same files; when it ends succeeded
    the batch is empty. *)
Theorem upload_keeps_batch_on_failure
    (st : state) (events : list ProgressEvent) (x : xhr) :
  selectedFiles st <> [] ->
  snd (uploadFiles origin JSON_parse TypeError_message st events x) =
    [upload_request (selectedFiles st)] /\
  isUploading (fst (uploadFiles origin JSON_parse TypeError_message st events x)) = false /\
  showQR (fst (uploadFiles origin JSON_parse TypeError_message st events x)) = showQR st /\
  qrLoading (fst (uploadFiles origin JSON_parse TypeError_message st events x)) =
    qrLoading st /\
  copySuccess (fst (uploadFiles origin JSON_parse TypeError_message st events x)) =
    copySuccess st /\
  ((status_of (fst (uploadFiles origin JSON_parse TypeError_message st events x)) = Failed /\
    selectedFiles (fst (uploadFiles origin JSON_parse TypeError_message st events x)) =
      selectedFiles st) \/
   (status_of (fst (uploadFiles origin JSON_parse TypeError_message st events x)) = Succeeded /\
    selectedFiles (fst (uploadFiles origin JSON_parse TypeError_message st events x)) = [])).
Proof.
  intros Hfiles. unfold uploadFiles.
  destruct (selectedFiles st) as [|f fs] eqn:E; [congruence|].
  cbn [List.length Nat.eqb fst snd]. rewrite <- E.
  rewrite settle_outcome.
  destruct (progressed_frame events (started st)) as (Hf & _ & _ & Hq & Hl & Hc).
  pose proof (outcome_never_error (selectedFiles st) x) as Hne.
  destruct (outcome origin JSON_parse (selectedFiles st) x) as [e|r];
    cbn [isUploading showQR qrLoading copySuccess selectedFiles];
    rewrite ?Hq, ?Hl, ?Hc, ?Hf; repeat split; auto.
  right. split; [|reflexivity].
  unfold status_of. cbn [isUploading result].
  destruct r as [u l fs' resp|m]; [reflexivity|]. now destruct (Hne m).
Qed.

(** X2. What a call of [uploadFiles] on a non-empty batch shows at its end
    depends on the batch and on the response only: two states with the same
    batch end with the same result, the same batch and the same request,
    whatever result they showed before and whatever progress was reported. *)
Theorem upload_result_depends_on_batch_and_response
    (st st' : state) (events events' : list ProgressEvent) (x : xhr) :
  selectedFiles st <> [] ->
  selectedFiles st' = selectedFiles st ->
  result (fst (uploadFiles origin JSON_parse TypeError_message st events x)) =
    result (fst (uploadFiles origin JSON_parse TypeError_message st' events' x)) /\
  selectedFiles (fst (uploadFiles origin JSON_parse TypeError_message st events x)) =
    selectedFiles (fst (uploadFiles origin JSON_parse TypeError_message st' events' x)) /\
  snd (uploadFiles origin JSON_parse TypeError_message st events x) =
    snd (uploadFiles origin JSON_parse TypeError_message st' events' x).
Proof.
  intros Hfiles Hsame. unfold uploadFiles. rewrite Hsame.
  destruct (selectedFiles st) as [|f fs] eqn:E; [congruence|].
  cbn [List.length Nat.eqb fst snd]. rewrite !settle_outcome.
  destruct (progressed_frame events (started st)) as (Hf & _).
  destruct (progressed_frame events' (started st')) as (Hf' & _).
  destruct (outcome origin JSON_parse (f :: fs) x) as [e|r];
    cbn [result selectedFiles]; repeat split.
  rewrite Hf, Hf'. cbn. congruence.
Qed.

(** X3. A response with status 200 whose body holds no link at all (a
    number, a boolean, an array, or an object none of whose [downloadLink],
    [url] and [link] is truthy) ends the call succeeded: the success box is
    shown with an empty download URL. *)
Theorem upload_without_link_succeeds_empty
    (st : state) (events : list ProgressEvent) (x : xhr) (response : value) :
  selectedFiles st <> [] ->
  promise JSON_parse x = inr response ->
  linkless response = true ->
  status_of (fst (uploadFiles origin JSON_parse TypeError_message st events x)) =
    Succeeded /\
  exists l fs,
    truthy l = false /\
    result (fst (uploadFiles origin JSON_parse TypeError_message st events x)) =
    Some (success [] l fs response).
Proof.
  intros Hfiles Hp Hl. unfold uploadFiles.
  destruct (selectedFiles st) as [|f fs0] eqn:E; [congruence|].
  cbn [List.length Nat.eqb fst]. rewrite settle_outcome.
  assert (exists l fs, truthy l = false /\
            outcome origin JSON_parse (f :: fs0) x = inr (success [] l fs response))
    as (l & fs & Hfalsy & ->).
  { unfold outcome. rewrite Hp. cbn [bind].
    destruct response as [| |b|n|s|items|props|g]; try discriminate Hl.
    - exists VUndefined. eexists. split; reflexivity.
    - exists VUndefined. eexists. split; reflexivity.
    - exists VUndefined. eexists. split; reflexivity.
    - unfold linkless in Hl.
      destruct (transfer_reference props) as [v|] eqn:T; [discriminate|].
      rewrite backendDownloadLink_of_object, T. cbn [bind ret].
      assert (truthy (own link props) = false) as Hlink.
      { unfold transfer_reference in T. unfold own.
        destruct (lookup (property_name link) props) as [c|] eqn:L; [|reflexivity].
        destruct (truthy c) eqn:Tc; [|reflexivity].
        assert (In c (flat_map (fun p => match lookup (property_name p) props with
                                         | Some v => [v]
                                         | None => []
                                         end) [downloadLink; url; link])) as Hin.
        { apply in_flat_map. exists link. split; [simpl; tauto|]. rewrite L. now left. }
        pose proof (find_none _ _ T _ Hin). congruence. }
      unfold frontendDownloadUrl_of. rewrite Hlink. cbn [bind ret].
      rewrite get_object. cbn [bind ret].
      exists (own link props). eexists. split; [exact Hlink|reflexivity].
    - exists VUndefined. eexists. split; reflexivity. }
  split; [reflexivity|]. exists l, fs. split; [exact Hfalsy|reflexivity].
Qed.

End UploadCalls.

Lemma upload_keeps_batch_on_failure_witness :
  snd (FileUploadService.uploadFiles (str "https://files.example") (JSON_parse_table [])
         (fun _ => []) (FileUploadService.handleFiles two_files FileUploadService.initial)
         [] (FileUploadService.onload 500 (str "disk full"))) =
    [FileUploadService.upload_request two_files] /\
  FileUploadService.selectedFiles
    (fst (FileUploadService.uploadFiles (str "https://files.example") (JSON_parse_table [])
            (fun _ => []) (FileUploadService.handleFiles two_files FileUploadService.initial)
            [] (FileUploadService.onload 500 (str "disk full")))) = two_files.
Proof.
  destruct (upload_keeps_batch_on_failure (str "https://files.example")
              (JSON_parse_table []) (fun _ => [])
              (FileUploadService.handleFiles two_files FileUploadService.initial) []
              (FileUploadService.onload 500 (str "disk full")) ltac:(discriminate))
    as (H1 & _ & _ & _ & _ & [[_ H2]|[H2 _]]).
  - split; [exact H1|exact H2].
  - discriminate H2.
Defined.

Lemma upload_result_depends_on_batch_and_response_witness :
  FileUploadService.result
    (fst (FileUploadService.uploadFiles (str "https://files.example")
            (JSON_parse_table [(link_body, link_object)]) (fun _ => [])
            (FileUploadService.handleFiles two_files FileUploadService.initial) []
            (FileUploadService.onload 200 link_body))) =
  FileUploadService.result
    (fst (FileUploadService.uploadFiles (str "https://files.example")
            (JSON_parse_table [(link_body, link_object)]) (fun _ => [])
            (FileUploadService.setResult
               (Some (FileUploadService.error (str "disk full")))
               (FileUploadService.handleFiles two_files FileUploadService.initial))
            [FileUploadService.Build_ProgressEvent true 4 8]
            (FileUploadService.onload 200 link_body))).
Proof.
  apply (upload_result_depends_on_batch_and_response (str "https://files.example")
           (JSON_parse_table [(link_body, link_object)]) (fun _ => [])
           (FileUploadService.handleFiles two_files FileUploadService.initial)
           (FileUploadService.setResult
              (Some (FileUploadService.error (str "disk full")))
              (FileUploadService.handleFiles two_files FileUploadService.initial))
           [] [FileUploadService.Build_ProgressEvent true 4 8]
           (FileUploadService.onload 200 link_body));
    [discriminate|reflexivity].
Defined.

Lemma upload_without_link_succeeds_empty_witness :
  FileUploadService.status_of
    (fst (FileUploadService.uploadFiles (str "https://files.example")
            (JSON_parse_table [(str "{}", VObject [])]) (fun _ => [])
            (FileUploadService.handleFiles two_files FileUploadService.initial) []
            (FileUploadService.onload 200 (str "{}")))) = FileUploadService.Succeeded.
Proof.
  apply (upload_without_link_succeeds_empty (str "https://files.example")
           (JSON_parse_table [(str "{}", VObject [])]) (fun _ => [])
           (FileUploadService.handleFiles two_files FileUploadService.initial) []
           (FileUploadService.onload 200 (str "{}")) (VObject []));
    [discriminate|reflexivity|reflexivity].
Defined.

(** * Further properties of the link translation *)

Lemma startsWith_app (s rest p : jsstring) :
  startsWith s p = true -> startsWith (s ++ rest) p = true.
Proof.
  unfold startsWith. revert s. induction p as [|c p IH]; intros s; [reflexivity|].
  destruct s as [|d s]; [discriminate|]. simpl.
  destruct (c =? d); [apply IH|discriminate].
Qed.

(** X4. The public URL does not depend on what stands before /download/ in
    the link of the service: a relative link and an absolute one on any host
    give the origin followed by /download/ and the id, when the id is not
    empty and has no line terminator and the literal does not begin earlier
    in the link. *)
Theorem toPublic_replaces_host (origin base id : jsstring) :
  includes (str "/download/") (base ++ str "/") = false ->
  id <> [] ->
  forallb dot id = true ->
  FileUploadService.toPublic origin (base ++ str "/download/" ++ id) =
  origin ++ str "/download/" ++ id.
Proof.
  intros Hbase Hne Hdot. unfold FileUploadService.toPublic.
  rewrite (download_re_after_origin base id Hbase).
  now rewrite (download_re_literal id Hne Hdot).
Qed.

Lemma toPublic_replaces_host_witness :
  FileUploadService.toPublic (str "https://files.example")
    (str "https://upload-qodp.onrender.com" ++ str "/download/" ++ str "80e17ee-d1c8") =
  str "https://files.example" ++ str "/download/" ++ str "80e17ee-d1c8".
Proof.
  apply (toPublic_replaces_host (str "https://files.example")
           (str "https://upload-qodp.onrender.com") (str "80e17ee-d1c8"));
    [reflexivity|discriminate|reflexivity].
Defined.

(** X5. On a site whose origin begins with http, the download link a call
    shows is empty or absolute: it is empty exactly when the link of the
    service is falsy (missing, or the empty string), and otherwise the link
    is a non-empty string and what is shown begins with http, whether the
    link matched the pattern, was absolute already, or was prefixed with the
    base of the service. *)
Theorem shown_link_empty_or_absolute
    (origin : jsstring) (backendDownloadLink : value) (frontendDownloadUrl : jsstring) :
  startsWith origin (str "http") = true ->
  FileUploadService.frontendDownloadUrl_of origin backendDownloadLink =
    inr frontendDownloadUrl ->
  (truthy backendDownloadLink = false /\ frontendDownloadUrl = []) \/
  (exists link,
      backendDownloadLink = VString link /\ link <> [] /\
      frontendDownloadUrl = FileUploadService.toPublic origin link /\
      startsWith frontendDownloadUrl (str "http") = true).
Proof.
  intros Horigin. unfold FileUploadService.frontendDownloadUrl_of.
  destruct (truthy backendDownloadLink) eqn:T.
  - destruct backendDownloadLink as [| |t|n|link|items|props|name];
      try discriminate.
    intros E. injection E as <-. right. exists link.
    split; [reflexivity|]. split; [now destruct link|]. split; [reflexivity|].
    unfold FileUploadService.toPublic.
    destruct (download_re link) as [fileId|].
    + now apply startsWith_app.
    + destruct (startsWith link (str "http")) eqn:E; [exact E|reflexivity].
  - intros E. injection E as <-. now left.
Qed.

Lemma shown_link_empty_or_absolute_witness :
  (truthy (VString (str "files/abc")) = false /\
   str "https://upload-qodp.onrender.comfiles/abc" = []) \/
  (exists link,
      VString (str "files/abc") = VString link /\ link <> [] /\
      str "https://upload-qodp.onrender.comfiles/abc" =
        FileUploadService.toPublic (str "https://files.example") link /\
      startsWith (str "https://upload-qodp.onrender.comfiles/abc") (str "http") = true).
Proof.
  apply (shown_link_empty_or_absolute (str "https://files.example")
           (VString (str "files/abc")) (str "https://upload-qodp.onrender.comfiles/abc"));
    reflexivity.
Defined.

(** No match of the download pattern begins inside the base of the service
    that the fallback puts before a link. *)
Lemma download_re_after_service_base (link : jsstring) :
  download_re (str "https://upload-qodp.onrender.com" ++ link) = download_re link.
Proof.
  apply download_re_leftmost. intros a b E Hb.
  unfold download_re_at.
  assert (strip_prefix (str "/download/") (b ++ link) = None) as ->; [|reflexivity].
  change (str "https://upload-qodp.onrender.com") with
    [104; 116; 116; 112; 115; 58; 47; 47; 117; 112; 108; 111; 97; 100; 45; 113; 111;
     100; 112; 46; 111; 110; 114; 101; 110; 100; 101; 114; 46; 99; 111; 109] in E.
  change (str "/download/") with [47; 100; 111; 119; 110; 108; 111; 97; 100; 47].
  do 32 (destruct a as [|? a];
         [ simpl in E; subst b; reflexivity
         | injection E as _ E ]).
  destruct a; [|discriminate E]. simpl in E. congruence.
Qed.

(** X6. Translating a link twice is translating it once, on every origin in
    which the literal /download/ does not begin: the link shown is a fixed
    point of the translation. *)
Theorem toPublic_idempotent (origin link : jsstring) :
  includes (str "/download/") (origin ++ str "/") = false ->
  FileUploadService.toPublic origin (FileUploadService.toPublic origin link) =
  FileUploadService.toPublic origin link.
Proof.
  intros Horigin. unfold FileUploadService.toPublic at 2 3.
  destruct (download_re link) as [fileId|] eqn:E.
  - apply download_re_Some in E as (pre & _ & Hne & Hdot & _).
    unfold FileUploadService.toPublic.
    rewrite (download_re_after_origin origin fileId Horigin).
    now rewrite (download_re_literal fileId Hne Hdot).
  - destruct (startsWith link (str "http")) eqn:S.
    + unfold FileUploadService.toPublic. now rewrite E, S.
    + unfold FileUploadService.toPublic.
      now rewrite download_re_after_service_base, E.
Qed.

Lemma toPublic_idempotent_witness :
  FileUploadService.toPublic (str "https://files.example")
    (FileUploadService.toPublic (str "https://files.example") (str "/files/abc")) =
  FileUploadService.toPublic (str "https://files.example") (str "/files/abc").
Proof.
  apply (toPublic_idempotent (str "https://files.example") (str "/files/abc")).
  reflexivity.
Defined.

(** * The upload component, event by event *)

Section UploadEvents.

Import FileUploadService.

Variable origin : jsstring.
Variable JSON_parse : jsstring -> option value.
Variable TypeError_message : type_error -> jsstring.

Abbreviation step := (step origin JSON_parse TypeError_message).
Abbreviation run := (run origin JSON_parse TypeError_message).

Lemma run_snoc (events : list event) (e : event) (m : session) :
  run (events ++ [e]) m = step e (run events m).
Proof. unfold FileUploadService.run. now rewrite fold_left_app. Qed.

Lemma run_app (events events' : list event) (m : session) :
  run (events ++ events') m = run events' (run events m).
Proof. unfold FileUploadService.run. now rewrite fold_left_app. Qed.

Lemma step_invariant (e : event) (m : session) :
  invariant m -> invariant (step e m).
Proof.
  destruct m as [st infl snt qt ct].
  unfold invariant. cbn [view inflight sent qrTimers copyTimers].
  intros (Hlen & Hup & Hres & Hprog & Hqr & Ht).
  destruct e; cbn [FileUploadService.step view inflight sent qrTimers copyTimers].
  - (* Select *) destruct st; cbn in *. repeat split; auto.
  - (* ClickRemove *)
    destruct (index <? List.length (selectedFiles st))%nat;
      cbn [view inflight sent qrTimers copyTimers]; [|repeat split; auto].
    destruct st; cbn in *. repeat split; auto.
  - (* ClickUpload *)
    destruct (nonempty_batch st && negb (isUploading st)) eqn:E;
      cbn [view inflight sent qrTimers copyTimers]; [|repeat split; auto].
    apply andb_prop in E as [_ E]. apply negb_true_iff in E.
    rewrite E in Hup. destruct infl as [|b infl]; [|discriminate Hup].
    destruct st; cbn in *. repeat split; auto.
  - (* ClickClear *)
    destruct (nonempty_batch st);
      cbn [view inflight sent qrTimers copyTimers]; [|repeat split; auto].
    destruct st; cbn in *. repeat split; auto.
  - (* Progress *)
    destruct infl as [|b infl];
      cbn [view inflight sent qrTimers copyTimers]; [repeat split; auto|].
    destruct (onprogress_frame e st) as (_ & Hu & Hr & Hs & Hl & _).
    rewrite Hu, Hr, Hs, Hl. repeat split; auto.
    intros Hfalse. rewrite Hfalse in Hup. discriminate Hup.
  - (* Ended *)
    destruct infl as [|b infl];
      cbn [view inflight sent qrTimers copyTimers]; [repeat split; auto|].
    assert (infl = []) as -> by (destruct infl; [reflexivity|simpl in Hlen; lia]).
    rewrite (settle_outcome origin JSON_parse TypeError_message).
    destruct (outcome origin JSON_parse b x);
      cbn [isUploading result uploadProgress qrLoading showQR selectedFiles];
      repeat split; auto; try discriminate; simpl; lia.
  - (* ClickQR *)
    destruct (succeeded st && negb (qrLoading st)) eqn:E;
      cbn [view inflight sent qrTimers copyTimers]; [|repeat split; auto].
    apply andb_prop in E as [_ E]. apply negb_true_iff in E.
    rewrite E in Ht. unfold toggleQR.
    destruct st as [fs up pr rs sq ql cs]; cbn in *. subst ql qt.
    destruct sq; cbn; repeat split; auto; discriminate.
  - (* QRTimeout *)
    destruct qt as [|n]; cbn [view inflight sent qrTimers copyTimers];
      [repeat split; auto|].
    destruct st as [fs up pr rs sq ql cs]; cbn in *.
    destruct ql; [|discriminate Ht]. injection Ht as ->.
    repeat split; auto; discriminate.
  - (* ClickCopy *)
    destruct (succeeded st); cbn [view inflight sent qrTimers copyTimers];
      [|repeat split; auto].
    destruct st; cbn in *. repeat split; auto.
  - (* CopyTimeout *)
    destruct ct as [|n]; cbn [view inflight sent qrTimers copyTimers];
      [repeat split; auto|].
    destruct st; cbn in *. repeat split; auto.
Qed.

Lemma run_invariant (events : list event) (m : session) :
  invariant m -> invariant (run events m).
Proof.
  revert m. induction events as [|e events IH]; intros m H; [exact H|].
  apply (IH (step e m)). now apply step_invariant.
Qed.

Lemma mounted_invariant : invariant mounted.
Proof. unfold invariant. cbn. repeat split; auto; discriminate. Qed.

(** X7. After any sequence of events on the mounted component, at most one
    upload request is in flight, and [isUploading] is true exactly when one
    is: the disabled upload button keeps a second call from starting. *)
Theorem one_upload_in_flight (events : list event) :
  (List.length (inflight (run events mounted)) <= 1)%nat /\
  (isUploading (view (run events mounted)) = true <-> inflight (run events mounted) <> []).
Proof.
  destruct (run_invariant events mounted mounted_invariant) as (Hlen & Hup & _).
  split; [exact Hlen|]. rewrite Hup.
  destruct (inflight (run events mounted)); simpl; split; congruence.
Qed.

(** X8. After any sequence of events, the component never shows a result
    while it is uploading, and its progress is zero whenever it is not
    uploading: no stale result beside a running upload, no stale progress
    after one. *)
Theorem no_result_while_uploading (events : list event) :
  (isUploading (view (run events mounted)) = false \/
   result (view (run events mounted)) = None) /\
  (isUploading (view (run events mounted)) = true \/
   uploadProgress (view (run events mounted)) = of_N 0).
Proof.
  destruct (run_invariant events mounted mounted_invariant)
    as (_ & _ & Hres & Hprog & _).
  destruct (isUploading (view (run events mounted))); split; auto.
Qed.

(** X9. After any sequence of events, the QR code is either not loading,
    and then no timer of [toggleQR] is running, or it is loading inside a
    shown QR area with exactly one timer running, whose expiry ends the
    loading: the spinner never stays for ever and is never shown alone. *)
Theorem qr_loading_ends (events : list event) :
  (qrLoading (view (run events mounted)) = false /\
   qrTimers (run events mounted) = 0%nat) \/
  (qrLoading (view (run events mounted)) = true /\
   showQR (view (run events mounted)) = true /\
   qrTimers (run events mounted) = 1%nat /\
   qrLoading (view (run (events ++ [QRTimeout]) mounted)) = false).
Proof.
  destruct (run_invariant events mounted mounted_invariant)
    as (_ & _ & _ & _ & Hqr & Ht).
  rewrite run_snoc.
  destruct (qrLoading (view (run events mounted))) eqn:E; [right|left; auto].
  repeat split; auto.
  cbn [FileUploadService.step]. rewrite Ht. reflexivity.
Qed.

Lemma run_progress (events : list ProgressEvent) (m : session) :
  inflight m <> [] ->
  run (List.map Progress events) m =
  mkSession (progressed events (view m)) (inflight m) (sent m) (qrTimers m)
    (copyTimers m).
Proof.
  revert m. induction events as [|e events IH]; intros m H.
  - now destruct m.
  - cbn [List.map]. unfold FileUploadService.run. cbn [fold_left].
    fold (run (List.map Progress events) (step (Progress e) m)).
    cbn [FileUploadService.step].
    destruct (inflight m) as [|b infl] eqn:E; [congruence|].
    rewrite IH; cbn [view inflight sent qrTimers copyTimers]; [|discriminate].
    reflexivity.
Qed.

(** X10. The machine of events and the call agree: from a session that is
    not uploading and whose batch is not empty, the click on the upload
    button, the progress events and the end of the request lead to the
    state [uploadFiles] computes, with its request sent and nothing left in
    flight. *)
Theorem events_agree_with_call
    (m : session) (events : list ProgressEvent) (x : xhr) :
  selectedFiles (view m) <> [] ->
  isUploading (view m) = false ->
  inflight m = [] ->
  view (run (ClickUpload :: List.map Progress events ++ [Ended x]) m) =
    fst (uploadFiles origin JSON_parse TypeError_message (view m) events x) /\
  sent (run (ClickUpload :: List.map Progress events ++ [Ended x]) m) =
    sent m ++ snd (uploadFiles origin JSON_parse TypeError_message (view m) events x) /\
  inflight (run (ClickUpload :: List.map Progress events ++ [Ended x]) m) = [].
Proof.
  intros Hfiles Hup Hin.
  change (ClickUpload :: List.map Progress events ++ [Ended x])
    with ([ClickUpload] ++ List.map Progress events ++ [Ended x]).
  rewrite !run_app.
  assert (run [ClickUpload] m =
          mkSession (started (view m)) [selectedFiles (view m)]
            (sent m ++ [upload_request (selectedFiles (view m))]) (qrTimers m)
            (copyTimers m)) as ->.
  { unfold FileUploadService.run. cbn [fold_left FileUploadService.step].
    unfold nonempty_batch. rewrite Hup, Hin.
    destruct (selectedFiles (view m)); [congruence|reflexivity]. }
  rewrite run_progress by discriminate.
  cbn [view inflight sent qrTimers copyTimers].
  unfold FileUploadService.run. cbn [fold_left FileUploadService.step inflight view sent].
  unfold uploadFiles.
  destruct (selectedFiles (view m)) as [|f fs] eqn:E; [congruence|].
  cbn [List.length Nat.eqb fst snd]. repeat split.
Qed.

(** X11. Files selected while a request is in flight are lost when it
    succeeds and kept when it fails: the end of the request empties the
    batch on success whatever it holds by then, and on failure leaves the
    new selection in place. *)
Theorem selection_during_upload
    (m : session) (fileArray : list File) (x : xhr) :
  selectedFiles (view m) <> [] ->
  isUploading (view m) = false ->
  inflight m = [] ->
  (status_of (view (run [ClickUpload; Select fileArray; Ended x] m)) = Succeeded /\
   selectedFiles (view (run [ClickUpload; Select fileArray; Ended x] m)) = []) \/
  (status_of (view (run [ClickUpload; Select fileArray; Ended x] m)) = Failed /\
   selectedFiles (view (run [ClickUpload; Select fileArray; Ended x] m)) = fileArray).
Proof.
  intros Hfiles Hup Hin.
  unfold FileUploadService.run.
  cbn [fold_left FileUploadService.step view inflight sent qrTimers copyTimers].
  unfold nonempty_batch. rewrite Hup, Hin.
  destruct (selectedFiles (view m)) as [|f fs] eqn:E; [congruence|].
  cbn [List.length Nat.ltb Nat.leb andb negb app view inflight].
  rewrite (settle_outcome origin JSON_parse TypeError_message).
  pose proof (outcome_never_error origin JSON_parse (f :: fs) x) as Hne.
  destruct (outcome origin JSON_parse (f :: fs) x) as [e|r].
  - right. split; reflexivity.
  - left. split; [|reflexivity]. unfold status_of. cbn [isUploading result].
    destruct r as [u l fs' resp|msg]; [reflexivity|]. now destruct (Hne msg).
Qed.

End UploadEvents.

Lemma events_agree_with_call_witness :
  FileUploadService.view
    (FileUploadService.run (str "https://files.example")
       (JSON_parse_table [(link_body, link_object)]) (fun _ => [])
       (FileUploadService.ClickUpload
          :: List.map FileUploadService.Progress
               [FileUploadService.Build_ProgressEvent true 4 8]
          ++ [FileUploadService.Ended (FileUploadService.onload 200 link_body)])
       (FileUploadService.run (str "https://files.example")
          (JSON_parse_table [(link_body, link_object)]) (fun _ => [])
          [FileUploadService.Select two_files] FileUploadService.mounted)) =
  fst (FileUploadService.uploadFiles (str "https://files.example")
         (JSON_parse_table [(link_body, link_object)]) (fun _ => [])
         (FileUploadService.handleFiles two_files FileUploadService.initial)
         [FileUploadService.Build_ProgressEvent true 4 8]
         (FileUploadService.onload 200 link_body)).
Proof.
  apply (events_agree_with_call (str "https://files.example")
           (JSON_parse_table [(link_body, link_object)]) (fun _ => [])
           (FileUploadService.run (str "https://files.example")
              (JSON_parse_table [(link_body, link_object)]) (fun _ => [])
              [FileUploadService.Select two_files] FileUploadService.mounted)
           [FileUploadService.Build_ProgressEvent true 4 8]
           (FileUploadService.onload 200 link_body));
    [discriminate|reflexivity|reflexivity].
Defined.

Lemma selection_during_upload_witness :
  FileUploadService.selectedFiles
    (FileUploadService.view
       (FileUploadService.run (str "https://files.example")
          (JSON_parse_table [(link_body, link_object)]) (fun _ => [])
          [FileUploadService.ClickUpload;
           FileUploadService.Select [Build_File (str "c.txt") 7 2];
           FileUploadService.Ended (FileUploadService.onload 200 link_body)]
          (FileUploadService.run (str "https://files.example")
             (JSON_parse_table [(link_body, link_object)]) (fun _ => [])
             [FileUploadService.Select two_files] FileUploadService.mounted))) = [].
Proof.
  destruct (selection_during_upload (str "https://files.example")
              (JSON_parse_table [(link_body, link_object)]) (fun _ => [])
              (FileUploadService.run (str "https://files.example")
                 (JSON_parse_table [(link_body, link_object)]) (fun _ => [])
                 [FileUploadService.Select two_files] FileUploadService.mounted)
              [Build_File (str "c.txt") 7 2]
              (FileUploadService.onload 200 link_body)
              ltac:(discriminate) eq_refl eq_refl) as [[_ H]|[H _]].
  - exact H.
  - discriminate H.
Defined.

(** * Further properties of the download component and of the router *)

Section DownloadRuns.

Import DownloadPage.

Lemma failed_message_nonempty (m : jsstring) (st : DownloadPage.state) :
  errorMessage (failed m st) <> [] /\
  downloadStatus (failed m st) = DownloadPage.error /\
  fileInfo (failed m st) = fileInfo st.
Proof. unfold failed. destruct m; cbn; repeat split; discriminate. Qed.

(** X12. However the request ends, the download component mounted at a
    path ends consistent: either it has succeeded, with the file information
    set, no error message, and the body saved exactly once; or it has
    failed, with no file information, an error message that is not empty,
    and nothing saved.  It is never left loading.  It makes at most one
    request, and none exactly when the path holds no id. *)
Theorem download_ends_consistent (pathname : jsstring) (f : fetched) :
  ((downloadStatus (fst (mount pathname f)) = DownloadPage.success /\
    fileInfo (fst (mount pathname f)) <> None /\
    errorMessage (fst (mount pathname f)) = [] /\
    List.length (saves (snd (mount pathname f))) = 1%nat) \/
   (downloadStatus (fst (mount pathname f)) = DownloadPage.error /\
    fileInfo (fst (mount pathname f)) = None /\
    errorMessage (fst (mount pathname f)) <> [] /\
    saves (snd (mount pathname f)) = [])) /\
  (List.length (requests (snd (mount pathname f))) <= 1)%nat /\
  (requests (snd (mount pathname f)) = [] <-> getFileIdFromPath pathname = None).
Proof.
  unfold mount, useEffect, DownloadPage.initial, getFileIdFromPath.
  cbn [fileId].
  destruct (download_re pathname) as [id|] eqn:E.
  - apply download_re_Some in E as (_ & _ & Hne & _).
    apply nonempty_true in Hne. rewrite Hne. unfold downloadFile.
    destruct f as [m|r].
    + destruct (failed_message_nonempty m
                  (setDownloadStatus loading
                     (DownloadPage.mkState (Some id) loading [] None))) as (H1 & H2 & H3).
      cbn [fst snd]. split; [right; repeat split; auto|].
      cbn. split; [lia|split; discriminate].
    + destruct (ok r); cbn [negb].
      * destruct (blob r) as [m|b].
        -- destruct (failed_message_nonempty m
                       (setDownloadStatus loading
                          (DownloadPage.mkState (Some id) loading [] None)))
             as (H1 & H2 & H3).
           cbn [fst snd]. split; [right; repeat split; auto|].
           cbn. split; [lia|split; discriminate].
        -- cbn [fst snd]. split; [left; repeat split; discriminate|].
           cbn. split; [lia|split; discriminate].
      * match goal with
        | |- context [failed ?msg ?s] =>
            destruct (failed_message_nonempty msg s) as (H1 & H2 & H3)
        end.
        cbn [fst snd]. split; [right; repeat split; auto|].
        cbn. split; [lia|split; discriminate].
  - cbn. split; [right; repeat split; discriminate|]. split; [lia|tauto].
Qed.

(** X13. A response that is not ok fails the download with the message
    Download failed: followed by the status and the status text, after the
    one request and without a save: its headers and its body are not looked
    at, so two such responses with the same status line end alike. *)
Theorem download_not_ok_ignores_body
    (pathname id : jsstring) (r r' : Response) :
  getFileIdFromPath pathname = Some id ->
  ok r = false ->
  ok r' = false ->
  status r' = status r ->
  statusText r' = statusText r ->
  errorMessage (fst (mount pathname (resolved r))) =
    str "Download failed: " ++ N_to_string (status r) ++ str " " ++ statusText r /\
  snd (mount pathname (resolved r)) =
    [Request (GET (str "https://upload-qodp.onrender.com/download/" ++ id)
                [(str "Accept", str "*/*")])] /\
  mount pathname (resolved r') = mount pathname (resolved r).
Proof.
  intros Hid Hok Hok' Hs Ht.
  unfold mount, useEffect, DownloadPage.initial. cbn [fileId]. rewrite Hid.
  assert (nonempty id = true) as ->.
  { unfold getFileIdFromPath in Hid.
    apply download_re_Some in Hid as (_ & _ & Hne & _). now apply nonempty_true. }
  unfold downloadFile. rewrite Hok, Hok', Hs, Ht. cbn [negb].
  repeat split.
Qed.

End DownloadRuns.

Lemma download_not_ok_ignores_body_witness :
  DownloadPage.errorMessage
    (fst (DownloadPage.mount (str "/download/abc123")
            (DownloadPage.resolved
               {| DownloadPage.ok := false; DownloadPage.status := 404;
                  DownloadPage.statusText := str "Not Found";
                  DownloadPage.header := report_headers;
                  DownloadPage.blob := inr [] |}))) =
  str "Download failed: 404 Not Found".
Proof.
  apply (download_not_ok_ignores_body (str "/download/abc123") (str "abc123")
           {| DownloadPage.ok := false; DownloadPage.status := 404;
              DownloadPage.statusText := str "Not Found";
              DownloadPage.header := report_headers;
              DownloadPage.blob := inr [] |}
           {| DownloadPage.ok := false; DownloadPage.status := 404;
              DownloadPage.statusText := str "Not Found";
              DownloadPage.header := fun _ => None;
              DownloadPage.blob := inl [] |});
    reflexivity.
Defined.

Lemma string_eqb_eq (a b : jsstring) : string_eqb a b = true <-> a = b.
Proof. unfold string_eqb. destruct (list_eq_dec N.eq_dec a b); split; congruence. Qed.

Lemma startsWith_prefix (s p : jsstring) :
  startsWith s p = true <-> exists rest, s = p ++ rest.
Proof.
  unfold startsWith. split.
  - destruct (strip_prefix p s) as [rest|] eqn:E; [|discriminate].
    intros _. exists rest. now apply strip_prefix_Some.
  - intros [rest ->]. now rewrite strip_prefix_app.
Qed.

(** X14. The two routes never render together.  The upload component is
    rendered at the path / and nowhere else; the download component is
    rendered at the paths that begin with /download/ and nowhere else; at
    every other path, such as /download without the final slash, nothing is
    rendered. *)
Theorem routes_exclusive (currentPath : jsstring) :
  (App.render currentPath = [App.FileUploadServicePage] /\ currentPath = str "/") \/
  (App.render currentPath = [App.DownloadPagePage] /\
   exists rest, currentPath = str "/download/" ++ rest) \/
  (App.render currentPath = [] /\
   currentPath <> str "/" /\
   forall rest, currentPath <> str "/download/" ++ rest).
Proof.
  unfold App.render, App.Route. cbn [flat_map app].
  destruct (string_eqb currentPath (str "/")) eqn:E.
  - apply string_eqb_eq in E. subst currentPath. left. split; reflexivity.
  - right.
    assert (currentPath <> str "/") as Hne.
    { intros H. apply string_eqb_eq in H. congruence. }
    destruct (startsWith currentPath (str "/download/")) eqn:S.
    + left. split; [reflexivity|]. now apply startsWith_prefix.
    + right. repeat split; auto. intros rest H.
      assert (startsWith currentPath (str "/download/") = true)
        by (apply startsWith_prefix; eauto).
      congruence.
Qed.

(** X15. The link an upload shows leads back to the files: for an id that
    is not empty and has no line terminator, the link /download/id of the
    service is shown as the origin followed by that path; at that path the
    router renders the download component alone, the component reads the
    same id, and its one request goes to the base of the service followed
    by the same path. *)
Theorem shared_link_round_trip
    (origin id : jsstring) (f : DownloadPage.fetched) :
  id <> [] ->
  forallb dot id = true ->
  FileUploadService.toPublic origin (str "/download/" ++ id) =
    origin ++ str "/download/" ++ id /\
  App.render (str "/download/" ++ id) = [App.DownloadPagePage] /\
  DownloadPage.getFileIdFromPath (str "/download/" ++ id) = Some id /\
  DownloadPage.requests (snd (DownloadPage.mount (str "/download/" ++ id) f)) =
    [GET (str "https://upload-qodp.onrender.com" ++ str "/download/" ++ id)
       [(str "Accept", str "*/*")]].
Proof.
  intros Hne Hdot.
  pose proof (download_re_literal id Hne Hdot) as E.
  split; [|split; [|split]].
  - unfold FileUploadService.toPublic. now rewrite E.
  - unfold App.render, App.Route. cbn [flat_map app].
    assert (string_eqb (str "/download/" ++ id) (str "/") = false) as ->.
    { destruct (string_eqb (str "/download/" ++ id) (str "/")) eqn:S; [|reflexivity].
      apply string_eqb_eq in S. discriminate S. }
    unfold startsWith. now rewrite strip_prefix_app.
  - exact E.
  - unfold DownloadPage.mount, DownloadPage.useEffect, DownloadPage.initial,
      DownloadPage.getFileIdFromPath.
    cbn [DownloadPage.fileId]. rewrite E.
    apply nonempty_true in Hne. rewrite Hne. unfold DownloadPage.downloadFile.
    destruct f as [m|r]; [reflexivity|].
    destruct (DownloadPage.ok r); [|reflexivity].
    destruct (DownloadPage.blob r); reflexivity.
Qed.

Lemma shared_link_round_trip_witness :
  DownloadPage.requests
    (snd (DownloadPage.mount (str "/download/" ++ str "abc123")
            (DownloadPage.resolved report_response))) =
  [GET (str "https://upload-qodp.onrender.com" ++ str "/download/" ++ str "abc123")
     [(str "Accept", str "*/*")]].
Proof.
  apply (shared_link_round_trip (str "https://files.example") (str "abc123")
           (DownloadPage.resolved report_response));
    [discriminate|reflexivity].
Defined.

(** ** The file name *)

Lemma leftmost_Some {A} (attempt : jsstring -> option A) (s : jsstring) (g : A) :
  leftmost attempt s = Some g -> exists a b, s = a ++ b /\ attempt b = Some g.
Proof.
  induction s as [|c s IH].
  - simpl. destruct (attempt []) eqn:E; [|discriminate].
    intros [= <-]. now exists [], [].
  - rewrite leftmost_cons. destruct (attempt (c :: s)) eqn:E.
    + intros [= <-]. now exists [], (c :: s).
    + intros H. destruct (IH H) as (a & b & -> & Hb). now exists (c :: a), b.
Qed.

Lemma takeWhile_value_char (s : jsstring) :
  forallb no_line_feed (takeWhile value_char s) = true.
Proof.
  induction s as [|c s IH]; [reflexivity|]. simpl.
  destruct (value_char c) eqn:E; [|reflexivity]. simpl. rewrite IH.
  unfold value_char in E. unfold no_line_feed.
  destruct (c =? 10); [|reflexivity]. rewrite orb_true_r in E. discriminate.
Qed.

Lemma lazy_until_dot (q : N) (s inner : jsstring) :
  lazy_until q s = Some inner -> forallb no_line_feed inner = true.
Proof.
  revert inner. induction s as [|c s IH]; intros inner; [discriminate|]. simpl.
  destruct (c =? q); [intros [= <-]; reflexivity|].
  destruct (dot c) eqn:D; [|discriminate].
  destruct (lazy_until q s) as [i|]; [|discriminate].
  intros [= <-]. simpl. rewrite (IH i eq_refl).
  unfold dot, is_line_terminator in D. unfold no_line_feed.
  destruct (c =? 10); [discriminate|reflexivity].
Qed.

Lemma filename_value_no_line_feed (s : jsstring) :
  forallb no_line_feed (filename_value s) = true.
Proof.
  unfold filename_value. destruct s as [|q t]; [reflexivity|].
  destruct (is_quote q) eqn:Q; [|apply takeWhile_value_char].
  destruct (lazy_until q t) as [inner|] eqn:L; [|apply takeWhile_value_char].
  assert (no_line_feed q = true) as Hq.
  { unfold is_quote in Q. unfold no_line_feed.
    destruct (N.eqb_spec q 10) as [->|]; [discriminate Q|reflexivity]. }
  simpl. rewrite Hq, forallb_app, (lazy_until_dot q t inner L). simpl.
  now rewrite Hq.
Qed.

Lemma remove_quotes_clean (s : jsstring) :
  forallb no_line_feed s = true ->
  forallb (fun c => negb (is_quote c) && no_line_feed c) (remove_quotes s) = true.
Proof.
  unfold remove_quotes. induction s as [|x s IH]; [reflexivity|].
  cbn [forallb filter]. intros H. apply andb_prop in H as [Hx Hs].
  destruct (negb (is_quote x)) eqn:Q; [|auto].
  cbn [forallb]. rewrite Q, Hx. simpl. auto.
Qed.

(** X16. Whatever the [Content-Disposition], the name the file is saved
    under holds no single quote, no double quote and no line feed. *)
Theorem filename_has_no_quote_nor_line_feed (contentDisposition : option jsstring) :
  forallb (fun c => negb (is_quote c) && no_line_feed c)
    (DownloadPage.filename_of contentDisposition) = true.
Proof.
  unfold DownloadPage.filename_of.
  destruct contentDisposition as [cd|]; [|reflexivity].
  destruct (nonempty cd); [|reflexivity].
  destruct (filename_re cd) as [g|] eqn:E; [|reflexivity].
  destruct (nonempty g); [|reflexivity].
  apply leftmost_Some in E as (a & b & _ & E).
  unfold filename_re_at in E.
  destruct (strip_prefix (str "filename") b) as [r|]; [|discriminate].
  destruct (dropWhile name_char r) as [|c v]; [discriminate|].
  assert (g = filename_value v) as ->.
  { revert E. clear.
    destruct c as [|p]; [discriminate|].
    do 6 (destruct p as [p|p|]; try discriminate). now intros [= <-]. }
  apply remove_quotes_clean, filename_value_no_line_feed.
Qed.

(** * Further properties of the size formatting *)

Lemma formatFileSize_positive (bytes : N) :
  0 < bytes ->
  FileUploadService.formatFileSize (of_N bytes) = format_nonzero (of_N bytes) /\
  DownloadPage.formatFileSize (of_N bytes) = format_nonzero (of_N bytes).
Proof.
  intros Hpos.
  unfold FileUploadService.formatFileSize, DownloadPage.formatFileSize, of_N,
    number_truthy.
  destruct (Qeq_bool (inject_Z (Z.of_N bytes)) 0) eqn:E; [|split; reflexivity].
  apply Qeq_bool_iff in E. change 0%Q with (inject_Z 0) in E.
  rewrite inject_Z_injective in E. lia.
Qed.

(** X17. A byte count below 1024 is rendered as the count itself followed
    by the unit Bytes, in both components: no division and no decimals. *)
Theorem formatFileSize_below_1024 (bytes : N) :
  bytes < 1024 ->
  FileUploadService.formatFileSize (of_N bytes) = N_to_string bytes ++ str " Bytes" /\
  DownloadPage.formatFileSize (of_N bytes) = N_to_string bytes ++ str " Bytes".
Proof.
  intros Hlt. destruct (N.eq_dec bytes 0) as [->|Hne]; [split; reflexivity|].
  assert (0 < bytes) as Hpos by lia.
  destruct (formatFileSize_positive bytes Hpos) as [-> ->].
  rewrite (format_nonzero_N bytes Hpos).
  assert (Z.log2 (Z.of_N bytes) / 10 = 0)%Z as ->.
  { apply Z.div_small. split; [apply Z.log2_nonneg|].
    apply Z.log2_lt_pow2; [lia|]. change (2 ^ 10)%Z with 1024%Z. lia. }
  change (1024 ^ 0)%Z with 1%Z.
  assert ((200 * Z.of_N bytes + 1) / (2 * 1) = 100 * Z.of_N bytes)%Z as ->.
  { replace (200 * Z.of_N bytes + 1)%Z with (1 + (100 * Z.of_N bytes) * 2)%Z by lia.
    change (2 * 1)%Z with 2%Z. rewrite Z.div_add by lia. reflexivity. }
  unfold hundredths_to_string.
  replace (100 * Z.of_N bytes mod 100)%Z with 0%Z
    by (rewrite Z.mul_comm, Z.mod_mul; lia).
  replace (100 * Z.of_N bytes / 100)%Z with (Z.of_N bytes)
    by (rewrite Z.mul_comm, Z.div_mul; lia).
  rewrite N2Z.id. split; reflexivity.
Qed.

Lemma formatFileSize_below_1024_witness :
  FileUploadService.formatFileSize (of_N 1023) = N_to_string 1023 ++ str " Bytes" /\
  DownloadPage.formatFileSize (of_N 1023) = N_to_string 1023 ++ str " Bytes".
Proof. apply (formatFileSize_below_1024 1023). reflexivity. Defined.

(** X18. The table of units ends at GB: a byte count of 1024^4 or more is
    rendered with the word undefined in place of a unit, in both
    components. *)
Theorem formatFileSize_beyond_units (bytes : N) :
  1024 ^ 4 <= bytes ->
  exists n : Z,
    FileUploadService.formatFileSize (of_N bytes) =
      hundredths_to_string n ++ str " undefined" /\
    DownloadPage.formatFileSize (of_N bytes) =
      hundredths_to_string n ++ str " undefined".
Proof.
  intros Hge.
  assert (0 < bytes) as Hpos.
  { apply N.lt_le_trans with (1024 ^ 4); [reflexivity|exact Hge]. }
  destruct (formatFileSize_positive bytes Hpos) as [-> ->].
  rewrite (format_nonzero_N bytes Hpos).
  assert (40 <= Z.log2 (Z.of_N bytes))%Z as Hlog.
  { apply Z.log2_le_pow2; [lia|]. change (2 ^ 40)%Z with (Z.of_N (1024 ^ 4)). lia. }
  assert (4 <= Z.log2 (Z.of_N bytes) / 10)%Z as Hi.
  { apply Z.div_le_lower_bound; lia. }
  assert (unit_name (Z.log2 (Z.of_N bytes) / 10) = str "undefined") as ->.
  { unfold unit_name.
    destruct (Z.ltb_spec (Z.log2 (Z.of_N bytes) / 10) 0); [lia|].
    apply nth_overflow. simpl. lia. }
  eexists. split; reflexivity.
Qed.

Lemma formatFileSize_beyond_units_witness :
  exists n : Z,
    FileUploadService.formatFileSize (of_N (1024 ^ 4)) =
      hundredths_to_string n ++ str " undefined" /\
    DownloadPage.formatFileSize (of_N (1024 ^ 4)) =
      hundredths_to_string n ++ str " undefined".
Proof. apply (formatFileSize_beyond_units (1024 ^ 4)). apply N.le_refl. Defined.

(** X19. The two copies of [formatFileSize] render every Number alike, but
    for [NaN]: the copy of the upload component renders it NaN undefined,
    the copy of the download component, which tests its argument for
    falsity first, renders it 0 Bytes. *)
Theorem formatFileSize_copies_differ_on_NaN (bytes : number) :
  match bytes with
  | NaN =>
      FileUploadService.formatFileSize bytes = str "NaN undefined" /\
      DownloadPage.formatFileSize bytes = str "0 Bytes"
  | _ => DownloadPage.formatFileSize bytes = FileUploadService.formatFileSize bytes
  end.
Proof.
  destruct bytes as [|s|q]; [split; reflexivity|reflexivity|].
  unfold DownloadPage.formatFileSize, FileUploadService.formatFileSize, number_truthy.
  now destruct (Qeq_bool q 0).
Qed.

(** X20. A [Content-Length] that does not begin with white space, a sign or
    a decimal digit gives the size [NaN], which the download component
    shows as 0 Bytes. *)
Theorem size_without_numeral_shown_as_zero (c : N) (rest : jsstring) (b : Blob) :
  is_white_space c = false ->
  c <> 45 ->
  c <> 43 ->
  is_decimal_digit c = false ->
  DownloadPage.size_of (Some (c :: rest)) b = NaN /\
  DownloadPage.formatFileSize (DownloadPage.size_of (Some (c :: rest)) b) =
    str "0 Bytes".
Proof.
  intros Hw Hm Hp Hd.
  assert (parseInt (c :: rest) = NaN) as E.
  { unfold parseInt. cbn [dropWhile]. rewrite Hw.
    destruct (N.eqb_spec c 45); [congruence|].
    destruct (N.eqb_spec c 43); [congruence|].
    assert ((c =? 48) = false) as H48.
    { destruct (N.eqb_spec c 48) as [->|]; [discriminate Hd|reflexivity]. }
    destruct rest as [|x t]; rewrite ?H48; cbn [andb parse_digits];
      now rewrite (digit_value_other c Hd). }
  unfold DownloadPage.size_of. cbn [nonempty]. rewrite E. split; reflexivity.
Qed.

Lemma size_without_numeral_shown_as_zero_witness :
  DownloadPage.size_of (Some (str "abc")) [] = NaN /\
  DownloadPage.formatFileSize (DownloadPage.size_of (Some (str "abc")) []) =
    str "0 Bytes".
Proof.
  apply (size_without_numeral_shown_as_zero 97 (str "bc") []);
    [reflexivity|discriminate|discriminate|reflexivity].
Defined.

(** * Retrying an upload, and the QR switch *)

Section UploadRetry.

Import FileUploadService.

Variable origin : jsstring.
Variable JSON_parse : jsstring -> option value.
Variable TypeError_message : type_error -> jsstring.

Abbreviation run := (run origin JSON_parse TypeError_message).
Abbreviation uploadFiles := (uploadFiles origin JSON_parse TypeError_message).

(** The state a call on a non-empty batch ends in, written out. *)
Lemma uploadFiles_final (st : state) (events : list ProgressEvent) (x : xhr) :
  selectedFiles st <> [] ->
  uploadFiles st events x =
  (match outcome origin JSON_parse (selectedFiles st) x with
   | inr r =>
       mkState [] false (of_N 0) (Some r) (showQR st) (qrLoading st) (copySuccess st)
   | inl e =>
       mkState (selectedFiles st) false (of_N 0)
         (Some (error (if nonempty (message_of TypeError_message e)
                       then message_of TypeError_message e else str "Upload failed")))
         (showQR st) (qrLoading st) (copySuccess st)
   end,
   [upload_request (selectedFiles st)]).
Proof.
  intros Hfiles. unfold FileUploadService.uploadFiles.
  destruct (selectedFiles st) as [|f fs] eqn:E; [congruence|].
  cbn [List.length Nat.eqb]. rewrite <- E. rewrite settle_outcome.
  destruct (progressed_frame events (started st)) as (-> & _ & _ & -> & -> & ->).
  reflexivity.
Qed.

Lemma run_upload (m : session) (x : xhr) :
  selectedFiles (view m) <> [] ->
  isUploading (view m) = false ->
  inflight m = [] ->
  run [ClickUpload; Ended x] m =
  mkSession (fst (uploadFiles (view m) [] x)) []
    (sent m ++ [upload_request (selectedFiles (view m))]) (qrTimers m) (copyTimers m).
Proof.
  intros Hfiles Hup Hin. rewrite (uploadFiles_final _ _ _ Hfiles). cbn [fst].
  destruct m as [st infl snt qt ct]. cbn [view inflight sent qrTimers copyTimers] in *.
  subst infl. destruct st as [fs up pr rs sq ql cs].
  cbn [selectedFiles isUploading showQR qrLoading copySuccess] in *. subst up.
  destruct fs as [|f fs]; [congruence|].
  unfold FileUploadService.run.
  cbn [fold_left step view inflight sent qrTimers copyTimers nonempty_batch
       selectedFiles isUploading List.length Nat.ltb Nat.leb andb negb app].
  rewrite settle_outcome.
  destruct (outcome origin JSON_parse (f :: fs) x); reflexivity.
Qed.

(** X21. There is no automatic retry, and a retry is a fresh call.  After
    an upload that failed, the upload button sends the same batch again,
    and the component ends as if the first attempt had not been made.
    After an upload that succeeded the batch is empty, and a further click
    on the upload button sends nothing. *)
Theorem retry_is_a_fresh_call (m : session) (x x' : xhr) :
  selectedFiles (view m) <> [] ->
  isUploading (view m) = false ->
  inflight m = [] ->
  (status_of (fst (uploadFiles (view m) [] x)) = Failed /\
   view (run [ClickUpload; Ended x; ClickUpload; Ended x'] m) =
     fst (uploadFiles (view m) [] x') /\
   sent (run [ClickUpload; Ended x; ClickUpload; Ended x'] m) =
     sent m ++ [upload_request (selectedFiles (view m));
                upload_request (selectedFiles (view m))]) \/
  (status_of (fst (uploadFiles (view m) [] x)) = Succeeded /\
   run [ClickUpload; Ended x; ClickUpload] m = run [ClickUpload; Ended x] m).
Proof.
  intros Hfiles Hup Hin.
  change [ClickUpload; Ended x; ClickUpload; Ended x']
    with ([ClickUpload; Ended x] ++ [ClickUpload; Ended x']).
  change [ClickUpload; Ended x; ClickUpload]
    with ([ClickUpload; Ended x] ++ [ClickUpload]).
  unfold FileUploadService.run at 1 2 3. rewrite !fold_left_app.
  fold (run [ClickUpload; Ended x] m).
  fold (run [ClickUpload; Ended x'] (run [ClickUpload; Ended x] m)).
  fold (run [ClickUpload] (run [ClickUpload; Ended x] m)).
  rewrite (run_upload m x Hfiles Hup Hin).
  rewrite (uploadFiles_final (view m) [] x Hfiles).
  rewrite (uploadFiles_final (view m) [] x' Hfiles). cbn [fst].
  pose proof (outcome_never_error origin JSON_parse (selectedFiles (view m)) x) as Hne.
  destruct (outcome origin JSON_parse (selectedFiles (view m)) x) as [e|r].
  - left. split; [reflexivity|].
    rewrite run_upload; cbn [view inflight sent selectedFiles isUploading];
      auto.
    rewrite uploadFiles_final; cbn [selectedFiles showQR qrLoading copySuccess fst];
      auto.
    split; [reflexivity|]. now rewrite <- app_assoc.
  - right. split.
    + unfold status_of. cbn [isUploading result].
      destruct r as [u l fs resp|msg]; [reflexivity|]. now destruct (Hne msg).
    + reflexivity.
Qed.

(** X22. The QR switch: from a shown success with the QR area hidden, a
    click shows the area with its code loading, a second click while it
    loads does nothing, and after the timer a click hides the area again,
    leaving the session as it was before the first click. *)
Theorem qr_switch (m : session) :
  succeeded (view m) = true ->
  showQR (view m) = false ->
  qrLoading (view m) = false ->
  (showQR (view (run [ClickQR] m)) = true /\
   qrLoading (view (run [ClickQR] m)) = true) /\
  run [ClickQR; ClickQR] m = run [ClickQR] m /\
  (showQR (view (run [ClickQR; QRTimeout] m)) = true /\
   qrLoading (view (run [ClickQR; QRTimeout] m)) = false) /\
  run [ClickQR; QRTimeout; ClickQR] m = m.
Proof.
  intros Hs Hq Hl. destruct m as [st infl snt qt ct].
  destruct st as [fs up pr rs sq ql cs]. cbn in Hs, Hq, Hl. subst sq ql.
  unfold FileUploadService.run, succeeded in *.
  cbn [fold_left step view inflight sent qrTimers copyTimers result qrLoading
       showQR negb andb toggleQR fst snd setShowQR setQrLoading toggleQR_resumed
       selectedFiles isUploading uploadProgress copySuccess succeeded] in *.
  destruct rs as [[u l f r|msg]|]; try discriminate Hs.
  cbn. repeat split.
Qed.

End UploadRetry.

Lemma retry_is_a_fresh_call_witness :
  FileUploadService.sent
    (FileUploadService.run (str "https://files.example")
       (JSON_parse_table [(link_body, link_object)]) (fun _ => [])
       [FileUploadService.ClickUpload;
        FileUploadService.Ended (FileUploadService.onload 500 (str "disk full"));
        FileUploadService.ClickUpload;
        FileUploadService.Ended (FileUploadService.onload 200 link_body)]
       (FileUploadService.run (str "https://files.example")
          (JSON_parse_table [(link_body, link_object)]) (fun _ => [])
          [FileUploadService.Select two_files] FileUploadService.mounted)) =
  [FileUploadService.upload_request two_files;
   FileUploadService.upload_request two_files].
Proof.
  destruct (retry_is_a_fresh_call (str "https://files.example")
              (JSON_parse_table [(link_body, link_object)]) (fun _ => [])
              (FileUploadService.run (str "https://files.example")
                 (JSON_parse_table [(link_body, link_object)]) (fun _ => [])
                 [FileUploadService.Select two_files] FileUploadService.mounted)
              (FileUploadService.onload 500 (str "disk full"))
              (FileUploadService.onload 200 link_body)
              ltac:(discriminate) eq_refl eq_refl) as [(_ & _ & H)|(H & _)].
  - exact H.
  - discriminate H.
Defined.

Lemma qr_switch_witness :
  FileUploadService.run (str "https://files.example")
    (JSON_parse_table [(link_body, link_object)]) (fun _ => [])
    [FileUploadService.ClickQR; FileUploadService.QRTimeout; FileUploadService.ClickQR]
    (FileUploadService.run (str "https://files.example")
       (JSON_parse_table [(link_body, link_object)]) (fun _ => [])
       [FileUploadService.Select two_files; FileUploadService.ClickUpload;
        FileUploadService.Ended (FileUploadService.onload 200 link_body)]
       FileUploadService.mounted) =
  FileUploadService.run (str "https://files.example")
    (JSON_parse_table [(link_body, link_object)]) (fun _ => [])
    [FileUploadService.Select two_files; FileUploadService.ClickUpload;
     FileUploadService.Ended (FileUploadService.onload 200 link_body)]
    FileUploadService.mounted.
Proof.
  apply (qr_switch (str "https://files.example")
           (JSON_parse_table [(link_body, link_object)]) (fun _ => [])
           (FileUploadService.run (str "https://files.example")
              (JSON_parse_table [(link_body, link_object)]) (fun _ => [])
              [FileUploadService.Select two_files; FileUploadService.ClickUpload;
               FileUploadService.Ended (FileUploadService.onload 200 link_body)]
              FileUploadService.mounted));
    reflexivity.
Defined.
